(** * EinZinY core engine: a shallow embedding of [engine.js]

    The proxy engine is event driven JavaScript.  Pure helpers ([getType],
    [isText], the CONNECT target parser, the TLS test) are embedded as
    functions.  Callback code is embedded as functions that return the
    trace of observable actions (log lines, socket operations, hook calls)
    in the order the event loop performs them; the collaborators reached
    through [global] are the fields of one record.

    Header values, URLs and CONNECT targets are strings of code units below
    256 (Node decodes the request line and header values as latin1), so
    they are embedded as [string]; message bodies are byte buffers or
    UTF-16 strings. *)

From Stdlib Require Import ZArith NArith Ascii String List Strings.Byte
  DecimalString DecimalN DecimalPos Lia Bool.
From stdpp Require Import base option gmap strings list.

(** ** JavaScript string primitives used by the engine *)

Module JS.

(** [s.startsWith(p)] *)
Definition startsWith (s p : string) : bool := String.prefix p s.

(** [s.endsWith(suf)]: some tail of [s] is [suf]. *)
Fixpoint endsWith (s suf : string) : bool :=
  String.eqb s suf ||
  match s with
  | EmptyString => false
  | String _ s' => endsWith s' suf
  end.

(** [s.includes(sub)]: [sub] starts at some position of [s]. *)
Fixpoint includes (s sub : string) : bool :=
  String.prefix sub s ||
  match s with
  | EmptyString => false
  | String _ s' => includes s' sub
  end.

(** [s.split(re)] for a regular expression matching exactly one
    character out of a class, as in [/,|;/], and [s.split(":")]:
    n separators give n+1 pieces, the empty string gives one piece. *)
Fixpoint split (sep : ascii -> bool) (s : string) : list string :=
  match s with
  | EmptyString => [EmptyString]
  | String c s' =>
      if sep c then EmptyString :: split sep s'
      else match split sep s' with
           | [] => [String c EmptyString]
           | w :: ws => String c w :: ws
           end
  end.

(** [parts.join(sep)] *)
Fixpoint join (sep : string) (parts : list string) : string :=
  match parts with
  | [] => EmptyString
  | [p] => p
  | p :: rest => p +:+ sep +:+ join sep rest
  end.

(** White space of [String.prototype.trim] among the code units below
    256: TAB, LF, VT, FF, CR, SPACE and NBSP. *)
Definition isWhiteSpace (c : ascii) : bool :=
  let n := N_of_ascii c in
  ((9 <=? n) && (n <=? 13) || (n =? 32) || (n =? 160))%N.

Fixpoint trimStart (s : string) : string :=
  match s with
  | EmptyString => EmptyString
  | String c s' => if isWhiteSpace c then trimStart s' else s
  end.

Fixpoint trimEnd (s : string) : string :=
  match s with
  | EmptyString => EmptyString
  | String c s' =>
      let t := trimEnd s' in
      if isWhiteSpace c && String.eqb t EmptyString then EmptyString
      else String c t
  end.

(** [s.trim()] *)
Definition trim (s : string) : string := trimEnd (trimStart s).

(** [s.toLowerCase()] on code units below 256: A-Z, and the latin1
    capitals 0xC0-0xDE except the multiplication sign 0xD7. *)
Definition lowerChar (c : ascii) : ascii :=
  let n := N_of_ascii c in
  if ((65 <=? n) && (n <=? 90) ||
      (192 <=? n) && (n <=? 222) && negb (n =? 215))%N
  then ascii_of_N (n + 32) else c.

Fixpoint toLowerCase (s : string) : string :=
  match s with
  | EmptyString => EmptyString
  | String c s' => String (lowerChar c) (toLowerCase s')
  end.

(** Truthiness of a value that is [undefined] or a string. *)
Definition truthy (v : option string) : bool :=
  match v with
  | None => false
  | Some s => negb (String.eqb s EmptyString)
  end.

(** [v === lit] for a value that is [undefined] or a string. *)
Definition strictEq (v : option string) (lit : string) : bool :=
  match v with
  | None => false
  | Some s => String.eqb s lit
  end.

(** [/^\d+$/.test(s)] *)
Definition isDigit (c : ascii) : bool :=
  let n := N_of_ascii c in ((48 <=? n) && (n <=? 57))%N.

Fixpoint allDigits (s : string) : bool :=
  match s with
  | EmptyString => true
  | String c s' => isDigit c && allDigits s'
  end.

Definition isInteger_test (s : string) : bool :=
  negb (String.eqb s EmptyString) && allDigits s.

(** [parseInt(s)] on a string of decimal digits, most significant
    first.  The value is exact here; the engine only compares it with
    65535, and the rounding of [parseInt] past 2^53 never crosses that
    bound. *)
Fixpoint parseDigits (acc : N) (s : string) : N :=
  match s with
  | EmptyString => acc
  | String c s' => parseDigits (10 * acc + (N_of_ascii c - 48))%N s'
  end.

Definition parseInt (s : string) : N := parseDigits 0%N s.

(** Number to string, as a template literal prints a port. *)
Definition numberToString (n : N) : string :=
  NilEmpty.string_of_uint (N.to_uint n).

End JS.

(** ** Header/MIME utilities *)

(** [getType(str = "", def = "text/html", noWildcard)]: the loop over the
    pieces, [bestGuess] threaded through, with its [break]. *)
Fixpoint getType_loop (parts : list string) (bestGuess : option string)
  : option string :=
  match parts with
  | [] => bestGuess
  | p :: rest =>
      let entry := JS.trim p in
      if negb (JS.truthy bestGuess) && String.eqb entry "*/*" then
        getType_loop rest (Some entry)
      else if JS.endsWith entry "/*" &&
              (negb (JS.truthy bestGuess) || JS.strictEq bestGuess "*/*") then
        getType_loop rest (Some entry)
      else if JS.includes entry "/" && negb (JS.includes entry "*") then
        Some entry
      else getType_loop rest bestGuess
  end.

Definition isCommaOrSemicolon (c : ascii) : bool :=
  Ascii.eqb c "," || Ascii.eqb c ";".

Definition getType (str def : option string) (noWildcard : bool) : string :=
  let str := default EmptyString str in
  let def := default "text/html" def in
  let parts := JS.split isCommaOrSemicolon str in
  let bestGuess := getType_loop parts None in
  if negb (JS.truthy bestGuess) ||
     (noWildcard && JS.includes (default EmptyString bestGuess) "*")
  then def
  else default EmptyString bestGuess.

(** [isText(mimeType)] *)
Definition isText (mimeType : option string) : bool :=
  if negb (JS.truthy mimeType) then false
  else
    let m := default EmptyString mimeType in
    JS.startsWith m "text/" || JS.endsWith m "/xhtml+xml" || JS.endsWith m "/xml".

(** ** Buffers, bodies and headers *)

Definition Buffer := list byte.

(** [Buffer.concat(chunks)] *)
Definition Buffer_concat (chunks : list Buffer) : Buffer := concat chunks.

(** A body handed to [write] or to [Buffer.byteLength] is a [Buffer] or a
    JavaScript string, a sequence of UTF-16 code units. *)
Inductive Payload :=
| Bytes (b : Buffer)
| Text (s : list N).

Module Utf8.

Definition isHighSurrogate (u : N) : bool := ((0xD800 <=? u) && (u <=? 0xDBFF))%N.
Definition isLowSurrogate (u : N) : bool := ((0xDC00 <=? u) && (u <=? 0xDFFF))%N.

Definition byteOf (n : N) : byte := default x00 (Byte.of_N (n mod 256)).

(** U+FFFD, written for a surrogate that has no partner. *)
Definition replacement : list byte := [xef; xbf; xbd].

Definition encodeUnit (u : N) : list byte :=
  if (u <? 0x80)%N then [byteOf u]
  else if (u <? 0x800)%N then
    [byteOf (0xC0 + u / 64); byteOf (0x80 + u mod 64)]
  else
    [byteOf (0xE0 + u / 4096); byteOf (0x80 + (u / 64) mod 64);
     byteOf (0x80 + u mod 64)].

Definition encodePair (hi lo : N) : list byte :=
  let cp := (0x10000 + (hi - 0xD800) * 1024 + (lo - 0xDC00))%N in
  [byteOf (0xF0 + cp / 262144); byteOf (0x80 + (cp / 4096) mod 64);
   byteOf (0x80 + (cp / 64) mod 64); byteOf (0x80 + cp mod 64)].

(** The bytes [write(string)] puts on the wire (default encoding utf8). *)
Fixpoint encode (s : list N) : list byte :=
  match s with
  | [] => []
  | u :: rest =>
      if isHighSurrogate u then
        match rest with
        | v :: rest' =>
            if isLowSurrogate v then encodePair u v ++ encode rest'
            else replacement ++ encode rest
        | [] => replacement
        end
      else if isLowSurrogate u then replacement ++ encode rest
      else encodeUnit u ++ encode rest
  end.

(** [Buffer.byteLength(string)]: counts without encoding. *)
Fixpoint byteLength (s : list N) : N :=
  match s with
  | [] => 0
  | u :: rest =>
      if (u <? 0x80)%N then 1 + byteLength rest
      else if (u <? 0x800)%N then 2 + byteLength rest
      else if isHighSurrogate u then
        match rest with
        | v :: rest' =>
            if isLowSurrogate v then 4 + byteLength rest'
            else 3 + byteLength rest
        | [] => 3
        end
      else 3 + byteLength rest
  end%N.

End Utf8.

(** [Buffer.byteLength(responseData)] *)
Definition Buffer_byteLength (d : Payload) : N :=
  match d with
  | Bytes b => N.of_nat (length b)
  | Text s => Utf8.byteLength s
  end.

(** The bytes that [localRes.write(responseData)] sends. *)
Definition written_bytes (d : Payload) : Buffer :=
  match d with
  | Bytes b => b
  | Text s => Utf8.encode s
  end.

(** A header value of a response is a string, or the number the engine
    stores under [content-length]. *)
Inductive HeaderValue :=
| HStr (s : string)
| HNum (n : N).

(** Header objects.  [IncomingMessage.headers] has lower-cased names and
    string values; the engine, like Node, reads it with lower-case keys. *)
Abbreviation ReqHeaders := (gmap string string).
Abbreviation ResHeaders := (gmap string HeaderValue).

(** Header names are case-insensitive on the wire: a header is present in
    a header object when some key spells it in any case. *)
Definition has_header (name : string) (h : ResHeaders) : Prop :=
  exists k v, h !! k = Some v /\ JS.toLowerCase k = JS.toLowerCase name.

(** ** The data of a transaction *)

(** The fields of [url.parse(...)] that the engine and [http.request] read. *)
Record Url := {
  protocol : option string;
  auth : option string;
  hostname : option string;
  port : option string;
  path : option string;
  href : string;
}.

(** Header objects live in a store: [options.headers = localReq.headers]
    copies the reference, not the object. *)
Definition loc := nat.
Abbreviation Heap := (gmap loc ReqHeaders).

Record Options := {
  o_url : Url;
  o_method : string;
  o_headers : loc;
  o_auth : option string;
  o_agent : N;
}.

(** How the request stream of the client finishes; the engine listens
    for its ["data"] and ["end"] only. *)
Inductive StreamEnd :=
| Ended
| Errored (message : string)
| Aborted.

Record LocalReq := {
  req_url : string;
  req_method : string;
  req_httpVersion : string;
  req_headers : loc;
  req_auth : option string;
  req_chunks : list Buffer;
  req_completion : StreamEnd;
}.

(** What a response stream emits after its data.  The engine registers a
    handler for each of ["end"], ["error"] and ["aborted"], and each event
    runs its own handler: a response that breaks off may emit ["aborted"],
    ["error"], both (Node emits ["aborted"] and then ["error"]), or nothing
    at all; ["end"] is emitted once, and only by a response that did not
    break off. *)
Inductive StreamFailure :=
| Stream_error (message : string)
| Stream_aborted.

Inductive ResponseEnd :=
| Response_ended
| Response_broken (events : list StreamFailure).

Record RemoteRes := {
  statusCode : N;
  statusMessage : string;
  res_headers : ReqHeaders;
  res_chunks : list Buffer;
  res_completion : ResponseEnd;
}.

Inductive Upstream :=
| ConnectFailed (message : string)
| Responded (remoteRes : RemoteRes).

(** [global.RequestDecision] and the decision object of the patcher. *)
Inductive RequestDecision := Allow | Empty | Deny | Redirect | Pipe | OtherDecision.

Inductive Nullable (A : Type) :=
| JNull
| JUndefined
| JValue (a : A).
Arguments JNull {A}.
Arguments JUndefined {A}.
Arguments JValue {A} a.

Record DecisionObject := {
  result : RequestDecision;
  d_headers : option ResHeaders;
  redirectLocation : Nullable string;
  redirectText : Payload;
}.

(** ** Observable actions, in the order the event loop performs them *)

Inductive Action :=
| Log (level message : string)
| Throw (message : string)
(* request engine *)
| LocalRes_destroy
| LocalRes_writeHead (status : N) (reason : string) (headers : ResHeaders)
| LocalRes_write (data : Payload)
| LocalRes_end
| Call_onRequest (referer : option string) (url : string) (payload : Buffer)
    (headers : ReqHeaders) (id : N)
| Http_request (secure : bool) (options : Options) (headers : ReqHeaders)
| Request_write (payload : Payload)
| Request_end
| Zlib_unzip (data : Buffer)
| Call_onTextResponse (referer : option string) (url : string) (text : list N)
    (headers : ResHeaders) (id : N)
| Call_onOtherResponse (referer : option string) (url : string) (data : Buffer)
    (headers : ResHeaders) (id : N)
(* CONNECT engine and dynamic server *)
| LocalSocket_pause
| LocalSocket_resume
| LocalSocket_destroy
| LocalSocket_write (line : string)
| LocalSocket_emit_data (head : Buffer)
| Call_onConnect (hostPort : string) (id : N)
| Net_connect (port : N) (host : option string)
| Pipe_local_to_connection
| Pipe_connection_to_local
| Process_nextTick
| Tls_sign (host : string)
| Server_addContext (host : string) (cert : string)
| Prepare_callback (host : string).

(** ** The collaborators reached through [global] *)

Record Global := {
  url_parse : string -> string + Url;
  agent_getAgent : string -> ReqHeaders -> bool -> N;
  (* request patcher: [None] when it never calls back; it may rewrite the
     payload and mutate the header object it was handed *)
  onRequest : option string -> string -> Buffer -> ReqHeaders -> N ->
              option (DecisionObject * Payload * ReqHeaders);
  (* the network: what the upstream request leads to *)
  http_request : bool -> Options -> ReqHeaders -> Payload -> Upstream;
  (* [zlib.unzip]: an error message or the inflated bytes *)
  zlib_unzip : Buffer -> string + Buffer;
  (* [buffer.toString()] *)
  Buffer_toString : Buffer -> list N;
  onTextResponse : option string -> string -> list N -> ResHeaders -> N ->
                   option (Payload * ResHeaders);
  onOtherResponse : option string -> string -> Buffer -> ResHeaders -> N ->
                    option (Payload * ResHeaders);
  onConnect : string -> N -> option RequestDecision;
  (* [net.connect]: [None] when the connection is made, else the error *)
  net_connect : N -> option string -> option string;
  (* the leaf certificate [tls.sign] calls back with *)
  tls_sign : string -> string;
}.

(** ** The request engine *)

Section RequestEngine.

Context (g : Global).

(** The header object an object reference points to. *)
Definition deref (heap : Heap) (l : loc) : ReqHeaders := default ∅ (heap !! l).

(** [onDone] of [requestEngine.finalize], after the patcher handed back
    [responseData] and left the header object as [headers]. *)
Definition finalize_onDone (remoteRes : RemoteRes) (headers : ResHeaders)
    (responseData : Payload) : list Action :=
  (* remoteRes.headers["content-length"] = Buffer.byteLength(responseData) *)
  let headers := <["content-length" := HNum (Buffer_byteLength responseData)]> headers in
  (* delete remoteRes.headers["Public-Key-Pins"] *)
  let headers := delete "Public-Key-Pins" headers in
  [ LocalRes_writeHead (statusCode remoteRes) (statusMessage remoteRes) headers;
    LocalRes_write responseData;
    LocalRes_end ].

(** [requestEngine.finalize(localRes, remoteRes, referer, url, isText,
    responseData, id)]; [headers] is the current state of
    [remoteRes.headers]. *)
Definition finalize (remoteRes : RemoteRes) (headers : ResHeaders)
    (referer : option string) (url : string) (isText : bool)
    (responseData : Buffer) (id : N) : list Action :=
  if isText then
    let text := Buffer_toString g responseData in
    Call_onTextResponse referer url text headers id ::
    match onTextResponse g referer url text headers id with
    | Some (patchedData, headers') => finalize_onDone remoteRes headers' patchedData
    | None => []
    end
  else
    Call_onOtherResponse referer url responseData headers id ::
    match onOtherResponse g referer url responseData headers id with
    | Some (patchedData, headers') => finalize_onDone remoteRes headers' patchedData
    | None => []
    end.

(** The ["end"] handler of [remoteRes]. *)
Definition remoteRes_onEnd (remoteRes : RemoteRes) (referer : option string)
    (url : string) (id : N) : list Action :=
  let data := Buffer_concat (res_chunks remoteRes) in
  let headers : ResHeaders := HStr <$> res_headers remoteRes in
  if isText (Some (getType (res_headers remoteRes !! "content-type") None false)) then
    let encoding := res_headers remoteRes !! "content-encoding" in
    let encoding := if JS.truthy encoding then JS.toLowerCase <$> encoding else encoding in
    let headers := <["content-encoding" := HStr "identity"]> headers in
    if JS.strictEq encoding "gzip" || JS.strictEq encoding "deflate" then
      Zlib_unzip data ::
      match zlib_unzip g data with
      | inl message =>
          [ Log "WARNING" ("Could not parse server response: " +:+ message);
            LocalRes_destroy ]
      | inr result => finalize remoteRes headers referer url true result id
      end
    else finalize remoteRes headers referer url true data id
  else finalize remoteRes headers referer url false data id.

(** The ["error"] and the ["aborted"] handler of [remoteRes]. *)
Definition remoteRes_onFailure (event : StreamFailure) : list Action :=
  match event with
  | Stream_error message =>
      [ Log "WARNING" ("Could not connect to remote server: " +:+ message);
        LocalRes_destroy ]
  | Stream_aborted => [ LocalRes_destroy ]
  end.

(** The response callback of [http.request] with the handlers it
    registers on [remoteRes]; every event of the stream runs its handler. *)
Definition onRemoteRes (remoteRes : RemoteRes) (referer : option string)
    (url : string) (id : N) : list Action :=
  match res_completion remoteRes with
  | Response_ended => remoteRes_onEnd remoteRes referer url id
  | Response_broken events => flat_map remoteRes_onFailure events
  end.

(** [Object.assign(options, url.parse(location))] *)
Definition Object_assign (options : Options) (u : Url) : Options :=
  {| o_url := u; o_method := o_method options; o_headers := o_headers options;
     o_auth := auth u; o_agent := o_agent options |}.

(** The headers written when the patcher gave none. *)
Definition defaultHeaders (accept : option string) : ResHeaders :=
  <["Content-Type" := HStr (getType accept None true)]>
    (<["Server" := HStr "Apache/2.4.7 (Ubuntu)"]> ∅).

(** [http.request(options, ...)], [request.write(payload)], [request.end()]
    and what the network answers. *)
Definition proxyRequest (heap : Heap) (localReq : LocalReq) (options : Options)
    (payload : Payload) (id : N) : list Action :=
  let secure := bool_decide (protocol (o_url options) = Some "https:") in
  let headers := deref heap (o_headers options) in
  Http_request secure options headers ::
  Request_write payload ::
  Request_end ::
  match http_request g secure options headers payload with
  | ConnectFailed message =>
      [ Log "WARNING" ("Could not connect to remote server: " +:+ message);
        LocalRes_destroy ]
  | Responded remoteRes =>
      onRemoteRes remoteRes (deref heap (req_headers localReq) !! "referer")
        (req_url localReq) id
  end.

(** The callback handed to [global.onRequest]; the patcher left the
    request header object as it is in [heap]. *)
Definition onRequest_callback (heap : Heap) (localReq : LocalReq)
    (options : Options) (id : N) (decision : DecisionObject) (payload : Payload)
  : list Action * Heap :=
  (* localReq.headers["accept-encoding"] = "gzip, deflate" *)
  let heap :=
    <[req_headers localReq :=
        <["accept-encoding" := "gzip, deflate"]> (deref heap (req_headers localReq))]> heap in
  let accept := deref heap (req_headers localReq) !! "accept" in
  match result decision with
  | Allow => (proxyRequest heap localReq options payload id, heap)
  | Empty =>
      ([ LocalRes_writeHead 200 "OK" (default (defaultHeaders accept) (d_headers decision));
         LocalRes_end ], heap)
  | Deny => ([ LocalRes_destroy ], heap)
  | Redirect =>
      match redirectLocation decision with
      | JNull =>
          ([ LocalRes_writeHead 200 "OK" (default (defaultHeaders accept) (d_headers decision));
             LocalRes_write (redirectText decision);
             LocalRes_end ], heap)
      | JUndefined => ([ Throw "TypeError" ], heap)
      | JValue location =>
          match url_parse g location with
          | inl message => ([ Throw message ], heap)
          | inr u => (proxyRequest heap localReq (Object_assign options u) payload id, heap)
          end
      end
  | Pipe | OtherDecision =>
      ([ Throw "requestEngine() does not accept [object Object] as a request decision." ], heap)
  end.

(** The ["end"] handler of [localReq]. *)
Definition localReq_onEnd (counter : N) (heap : Heap) (localReq : LocalReq)
    (options : Options) : list Action * N * Heap :=
  let payload := Buffer_concat (req_chunks localReq) in
  let warn :=
    if String.eqb (o_method options) "GET" && negb (Nat.eqb (length payload) 0)
    then [ Log "WARNING" "Received a GET request with a payload." ] else [] in
  (* const id = uid() *)
  let id := counter in
  let counter := (counter + 1)%N in
  let headers := deref heap (req_headers localReq) in
  let referer := headers !! "referer" in
  let call := Call_onRequest referer (req_url localReq) payload headers id in
  match onRequest g referer (req_url localReq) payload headers id with
  | None => (warn ++ [call], counter, heap)
  | Some (decision, payload', headers') =>
      let heap := <[req_headers localReq := headers']> heap in
      let '(trace, heap) := onRequest_callback heap localReq options id decision payload' in
      (warn ++ call :: trace, counter, heap)
  end.

(** [options], as assembled from the parsed URL and the request. *)
Definition requestOptions (heap : Heap) (localReq : LocalReq) (u : Url) : Options :=
  {| o_url := u;
     o_method := req_method localReq;
     (* options.headers = localReq.headers: the same object *)
     o_headers := req_headers localReq;
     o_auth := req_auth localReq;
     o_agent := agent_getAgent g (req_httpVersion localReq)
                  (deref heap (req_headers localReq))
                  (bool_decide (protocol u = Some "https:")) |}.

(** [requestEngine(localReq, localRes)] run to the end of the transaction. *)
Definition requestEngine (counter : N) (heap : Heap) (localReq : LocalReq)
  : list Action * N * Heap :=
  let info := Log "INFO" ("Received a REQUEST request: " +:+ req_url localReq) in
  match url_parse g (req_url localReq) with
  | inl message =>
      ([ info;
         Log "WARNING" ("Received an invalid REQUEST request: " +:+ message);
         LocalRes_destroy ], counter, heap)
  | inr u =>
      let options := requestOptions heap localReq u in
      if String.eqb (req_url localReq) EmptyString || JS.startsWith (req_url localReq) "/" then
        ([ info;
           Log "WARNING" "Received an invalid REQUEST request: No host give.";
           LocalRes_destroy ], counter, heap)
      else
        match req_completion localReq with
        | Ended =>
            let '(trace, counter, heap) := localReq_onEnd counter heap localReq options in
            (info :: trace, counter, heap)
        | Errored message =>
            ([ info; Log "WARNING" ("Local connection failed: " +:+ message);
               LocalRes_destroy ], counter, heap)
        | Aborted => ([ info ], counter, heap)
        end
  end.

End RequestEngine.

(** Line break of the header block, CR LF. *)
Definition CRLF : string := String (ascii_of_N 13) (String (ascii_of_N 10) EmptyString).

(** ** The dynamic server *)

Record DynamicServer := {
  ds_port : N;
  knownHosts : list string;
}.

(** [new DynamicServer()] *)
Definition DynamicServer_new : DynamicServer :=
  {| ds_port := 12346; knownHosts := [] |}.

(** [this.knownHosts.includes(host)] *)
Definition knows (ds : DynamicServer) (host : string) : bool :=
  existsb (String.eqb host) (knownHosts ds).

(** [this.knownHosts.push(host)] in the callback of [tls.sign]. *)
Definition knownHosts_push (ds : DynamicServer) (host : string) : DynamicServer :=
  {| ds_port := ds_port ds; knownHosts := knownHosts ds ++ [host] |}.

(** The event loop around [prepare]: calls of [prepare] and completions of
    [tls.sign] arrive in any order; [signing] lists the hosts whose
    [tls.sign] has not called back yet, oldest first. *)
Record Loop := {
  server : DynamicServer;
  signing : list string;
}.

Inductive LoopEvent :=
| Ev_prepare (host : string)
| Ev_signed (k : nat).

Section ConnectEngine.

Context (g : Global).

(** [prepare(host, callback)] when [tls.sign] calls back before anything
    else happens; [callback] is the trace of the continuation. *)
Definition prepare (ds : DynamicServer) (host : string)
    (callback : DynamicServer -> list Action) : list Action * DynamicServer :=
  if knows ds host then
    (Process_nextTick :: Prepare_callback host :: callback ds, ds)
  else
    let ds' := knownHosts_push ds host in
    (Tls_sign host :: Server_addContext host (tls_sign g host) ::
     Prepare_callback host :: callback ds', ds').

(** One turn of the event loop: the body of [prepare] up to its return,
    or the callback handed to [tls.sign]. *)
Definition loop_step (st : Loop) (ev : LoopEvent) : list Action * Loop :=
  match ev with
  | Ev_prepare host =>
      if knows (server st) host then
        ([ Process_nextTick; Prepare_callback host ], st)
      else
        ([ Tls_sign host ],
         {| server := server st; signing := signing st ++ [host] |})
  | Ev_signed k =>
      match signing st !! k with
      | Some host =>
          ([ Server_addContext host (tls_sign g host); Prepare_callback host ],
           {| server := knownHosts_push (server st) host;
              signing := delete k (signing st) |})
      | None => ([], st)
      end
  end.

Fixpoint loop_run (st : Loop) (evs : list LoopEvent) : list Action * Loop :=
  match evs with
  | [] => ([], st)
  | ev :: rest =>
      let '(t1, st1) := loop_step st ev in
      let '(t2, st2) := loop_run st1 rest in
      (t1 ++ t2, st2)
  end.

(** [localHead.readUInt8(i)]; out of range it throws. *)
Definition readUInt8 (b : Buffer) (i : nat) : option N := Byte.to_N <$> b !! i.

(** The connect callback shared by the three [net.connect] calls. *)
Definition splice (localHead : Buffer) : list Action :=
  [ Pipe_local_to_connection; Pipe_connection_to_local;
    LocalSocket_emit_data localHead; LocalSocket_resume ].

(** The TLS branch of [connectEngine.onHandshake]. *)
Definition tlsPath (ds : DynamicServer) (localHead : Buffer) (host : string)
  : list Action * DynamicServer :=
  prepare ds host (fun ds' =>
    Net_connect (ds_port ds') None ::
    match net_connect g (ds_port ds') None with
    | None => splice localHead
    | Some message =>
        [ Log "ERROR" "An error occured when connecting to dynamic server for encrypted requests handling.";
          Throw message ]
    end).

(** The other branch: loop back to the main proxy server. *)
Definition loopbackPath (localHead : Buffer) : list Action :=
  Net_connect 12345 None ::
  match net_connect g 12345 None with
  | None => splice localHead
  | Some message =>
      [ Log "ERROR" "An error occured when backlooping for WebSocket handling.";
        Throw message ]
  end.

(** [connectEngine.onHandshake(localReq, localSocket, localHead, host, port)] *)
Definition onHandshake (ds : DynamicServer) (localHead : Buffer) (host : string)
    (port : N) : list Action * DynamicServer :=
  match readUInt8 localHead 0, readUInt8 localHead 1, readUInt8 localHead 2 with
  | Some b0, Some b1, Some b2 =>
      if ((b0 =? 0x16) && (b1 =? 0x03) && (b2 <? 0x06))%N then
        tlsPath ds localHead host
      else (loopbackPath localHead, ds)
  | _, _, _ => ([ Throw "RangeError" ], ds)
  end.

Definition isColon (c : ascii) : bool := Ascii.eqb c ":".

(** The target parser at the head of [connectEngine]: host and port. *)
Definition parseTarget (url : string) : string * N :=
  let parts := JS.split isColon url in
  let port := 443%N in
  if JS.isInteger_test (List.last parts EmptyString) then
    (* port = parseInt(parts.pop()) *)
    let port := JS.parseInt (List.last parts EmptyString) in
    let parts := removelast parts in
    let port := if ((port <? 0) || (65535 <? port))%N then 443%N else port in
    (JS.join ":" parts, port)
  else (JS.join ":" parts, port).

(** The [once("data")] handler: bytes are gathered until there are three. *)
Fixpoint gather (data : Buffer) (incoming : list Buffer) : option Buffer :=
  match incoming with
  | [] => None
  | incomingData :: rest =>
      let data := Buffer_concat [data; incomingData] in
      if (length data <? 3)%nat then gather data rest else Some data
  end.

(** The reply that asks the user agent to send the handshake. *)
Definition established (httpVersion : string) (headers : ReqHeaders) : list Action :=
  [ LocalSocket_write ("HTTP/" +:+ httpVersion +:+ " 200 Connection Established" +:+ CRLF) ] ++
  (if bool_decide (headers !! "connection" = Some "keep-alive")
   then [ LocalSocket_write ("Connection: keep-alive" +:+ CRLF) ] else []) ++
  (if bool_decide (headers !! "proxy-connection" = Some "keep-alive")
   then [ LocalSocket_write ("Proxy-Connection: keep-alive" +:+ CRLF) ] else []) ++
  [ LocalSocket_write CRLF; LocalSocket_resume ].

(** The callback handed to [global.onConnect]. *)
Definition onConnect_callback (ds : DynamicServer) (localReq : LocalReq)
    (headers : ReqHeaders) (localHead : Buffer) (incoming : list Buffer)
    (host : string) (port : N) (decision : RequestDecision)
  : list Action * DynamicServer :=
  match decision with
  | Allow =>
      if (3 <=? length localHead)%nat then onHandshake ds localHead host port
      else
        let reply := established (req_httpVersion localReq) headers in
        match gather localHead incoming with
        | None => (reply, ds)
        | Some data =>
            let '(trace, ds) := onHandshake ds data host port in
            (reply ++ LocalSocket_pause :: trace, ds)
        end
  | Deny => ([ LocalSocket_destroy ], ds)
  | Pipe =>
      (Net_connect port (Some host) ::
       match net_connect g port (Some host) with
       | None => splice localHead
       | Some message => [ Throw message ]
       end, ds)
  | Empty | Redirect | OtherDecision =>
      ([ Throw "connectEngine() does not accept [object Object] as a request decision." ], ds)
  end.

(** [connectEngine(localReq, localSocket, localHead)] run to the end of
    the set-up of the tunnel; [incoming] are the chunks the client sends
    after the head. *)
Definition connectEngine (counter : N) (ds : DynamicServer) (heap : Heap)
    (localReq : LocalReq) (localHead : Buffer) (incoming : list Buffer)
  : list Action * N * DynamicServer :=
  let info := Log "INFO" ("Received a CONNECT request: " +:+ req_url localReq) in
  let '(host, port) := parseTarget (req_url localReq) in
  let id := counter in
  let counter := (counter + 1)%N in
  let hostPort := host +:+ ":" +:+ JS.numberToString port in
  let start := [ info; LocalSocket_pause; Call_onConnect hostPort id ] in
  match onConnect g hostPort id with
  | None => (start, counter, ds)
  | Some decision =>
      let '(trace, ds) :=
        onConnect_callback ds localReq (deref heap (req_headers localReq))
          localHead incoming host port decision in
      (start ++ trace, counter, ds)
  end.

End ConnectEngine.

(** ** The behaviour the specification words for [parseAcceptedType] *)

(** A fully-specified [type/subtype] entry: a slash and no star. *)
Definition fullySpecified (entry : string) : bool :=
  JS.includes entry "/" && negb (JS.includes entry "*").

(** A [type/*] entry. *)
Definition typeWildcard (entry : string) : bool :=
  JS.endsWith entry "/*" && negb (String.eqb entry "*/*").

(** The entry [*/*]. *)
Definition anyWildcard (entry : string) : bool := String.eqb entry "*/*".

(** The entry the scan prefers: the first fully-specified one, else the
    first [type/*], else [*/*]. *)
Definition preferred (entries : list string) : option string :=
  match find fullySpecified entries with
  | Some e => Some e
  | None =>
      match find typeWildcard entries with
      | Some e => Some e
      | None => find anyWildcard entries
      end
  end.

Definition parseAcceptedType_spec (headerValue default_ : option string)
    (noWildcard : bool) : string :=
  let def := default "text/html" default_ in
  let entries := map JS.trim (JS.split isCommaOrSemicolon (default EmptyString headerValue)) in
  match preferred entries with
  | None => def
  | Some e => if noWildcard && JS.includes e "*" then def else e
  end.

(** ** The behaviour the specification words for the CONNECT target *)

(** The final segment is consumed when it is all digits in [0,65535];
    otherwise nothing is consumed and the port is 443. *)
Definition parseTarget_spec (target : string) : string * N :=
  let segments := JS.split isColon target in
  let final := List.last segments EmptyString in
  if JS.isInteger_test final && (JS.parseInt final <=? 65535)%N then
    (JS.join ":" (removelast segments), JS.parseInt final)
  else (JS.join ":" segments, 443%N).

(** The port the engine settles on for a final segment of digits. *)
Definition portOf (digits : string) : N :=
  if (JS.parseInt digits <=? 65535)%N then JS.parseInt digits else 443%N.

(** ** Reading traces *)

Definition is_onTextResponse (a : Action) : bool :=
  match a with Call_onTextResponse _ _ _ _ _ => true | _ => false end.

Definition is_onOtherResponse (a : Action) : bool :=
  match a with Call_onOtherResponse _ _ _ _ _ => true | _ => false end.

Definition is_Http_request (a : Action) : bool :=
  match a with Http_request _ _ _ => true | _ => false end.

(** Actions that put bytes on the client connection. *)
Definition writes_to_client (a : Action) : bool :=
  match a with
  | LocalRes_writeHead _ _ _ | LocalRes_write _ | LocalRes_end => true
  | _ => false
  end.

Definition is_destroy (a : Action) : bool :=
  match a with LocalRes_destroy => true | _ => false end.

Definition is_onRequest (a : Action) : bool :=
  match a with Call_onRequest _ _ _ _ _ => true | _ => false end.

(** The status line of the reply to CONNECT. *)
Definition is_established (a : Action) : bool :=
  match a with
  | LocalSocket_write line => JS.includes line " 200 Connection Established"
  | _ => false
  end.

(** From [connection.pipe(localSocket)] on, bytes of the loopback or
    upstream connection reach the client. *)
Definition is_pipe_to_client (a : Action) : bool :=
  match a with Pipe_connection_to_local => true | _ => false end.

(** The reply has been written (or [written] says so) by the time the
    connection is piped to the client. *)
Fixpoint established_first (written : bool) (trace : list Action) : bool :=
  match trace with
  | [] => true
  | a :: rest =>
      (negb (is_pipe_to_client a) || written) &&
      established_first (written || is_established a) rest
  end.

(** Actions that neither write to the client socket nor call the CONNECT
    patcher. *)
Definition handshake_action (a : Action) : bool :=
  match a with
  | Call_onConnect _ _ | LocalSocket_write _ => false
  | _ => true
  end.

(** The host is known to the server or its certificate is being signed. *)
Definition settled (st : Loop) (host : string) : bool :=
  knows (server st) host || existsb (String.eqb host) (signing st).

(** The number of times [tls.sign(host, ...)] is called in a trace. *)
Definition is_sign (host : string) (a : Action) : bool :=
  match a with Tls_sign h => String.eqb h host | _ => false end.

Definition sign_count (host : string) (trace : list Action) : nat :=
  length (List.filter (is_sign host) trace).

(** No [prepare(host)] arrives while a [tls.sign(host)] has not called
    back: the calls for [host] are serialized. *)
Fixpoint serialized (g : Global) (host : string) (st : Loop) (evs : list LoopEvent)
  : bool :=
  match evs with
  | [] => true
  | ev :: rest =>
      match ev with
      | Ev_prepare h =>
          negb (String.eqb h host && existsb (String.eqb host) (signing st))
      | Ev_signed _ => true
      end && serialized g host (loop_step g st ev).2 rest
  end.


(** ** The dynamic server as a request handler *)

(** String concatenation with a value that may be [undefined]. *)
Definition concatValue (v : option string) : string := default "undefined" v.

(** [DynamicServer.onRequest(localReq, localRes)]: the URL of the request
    object is overwritten with the absolute one, then the request engine
    runs on it. *)
Definition DynamicServer_onRequest (g : Global) (counter : N) (heap : Heap)
    (localReq : LocalReq) : list Action * N * Heap :=
  let url :=
    "https://" +:+ concatValue (deref heap (req_headers localReq) !! "host")
               +:+ req_url localReq in
  requestEngine g counter heap
    {| req_url := url; req_method := req_method localReq;
       req_httpVersion := req_httpVersion localReq;
       req_headers := req_headers localReq; req_auth := req_auth localReq;
       req_chunks := req_chunks localReq;
       req_completion := req_completion localReq |}.

(** ** Reading strings *)

(** No character of the string satisfies [sep]. *)
Fixpoint free_of (sep : ascii -> bool) (s : string) : bool :=
  match s with
  | EmptyString => true
  | String c s' => negb (sep c) && free_of sep s'
  end.

(** The string is empty or starts with a character that is no white space. *)
Definition startsClean (s : string) : bool :=
  match s with
  | EmptyString => true
  | String c _ => negb (JS.isWhiteSpace c)
  end.

(** ** Counting in traces *)

Definition count (p : Action -> bool) (trace : list Action) : nat :=
  length (List.filter p trace).

Definition is_end (a : Action) : bool :=
  match a with LocalRes_end => true | _ => false end.

Definition is_writeHead (a : Action) : bool :=
  match a with LocalRes_writeHead _ _ _ => true | _ => false end.

Definition is_response_hook (a : Action) : bool :=
  is_onTextResponse a || is_onOtherResponse a.

Definition is_unzip (a : Action) : bool :=
  match a with Zlib_unzip _ => true | _ => false end.

Definition is_throw (a : Action) : bool :=
  match a with Throw _ => true | _ => false end.

Definition is_sign_any (a : Action) : bool :=
  match a with Tls_sign _ => true | _ => false end.

Definition is_net_connect (a : Action) : bool :=
  match a with Net_connect _ _ => true | _ => false end.

(** The transaction id an action hands to a patcher hook. *)
Definition action_id (a : Action) : option N :=
  match a with
  | Call_onRequest _ _ _ _ id
  | Call_onTextResponse _ _ _ _ id
  | Call_onOtherResponse _ _ _ _ id
  | Call_onConnect _ id => Some id
  | _ => None
  end.

(** The action hands an id to a patcher hook. *)
Definition has_id (a : Action) : bool :=
  match action_id a with Some _ => true | None => false end.

(** The URL an action hands to a patcher hook of the request engine. *)
Definition action_url (a : Action) : option string :=
  match a with
  | Call_onRequest _ url _ _ _
  | Call_onTextResponse _ url _ _ _
  | Call_onOtherResponse _ url _ _ _ => Some url
  | _ => None
  end.

(** ** Concrete collaborators

    A small world in which the engine can be run: an origin that answers
    every request with one fixed outcome and patchers that hand back what
    they were given. *)

Module Scenario.

Definition ascii_bytes (s : string) : Buffer := list_byte_of_string s.

Definition parse (s : string) : string + Url :=
  inr {| protocol := Some (if JS.startsWith s "https:" then "https:" else "http:");
         auth := None; hostname := Some "example.test"; port := None;
         path := Some "/"; href := s |}.

(** A stand-in for the inflater: the two magic bytes of gzip wrap the
    body, anything else is refused. *)
Definition unzip (data : Buffer) : string + Buffer :=
  match data with
  | x1f :: x8b :: rest => inr rest
  | _ => inl "incorrect header check"
  end.

(** The patcher answers every request with [decision]; the origin answers
    with [origin]. *)
Definition world (decision : DecisionObject) (origin : Upstream) : Global :=
  {| url_parse := parse;
     agent_getAgent := fun _ _ _ => 0%N;
     onRequest := fun _ _ payload headers _ => Some (decision, Bytes payload, headers);
     http_request := fun _ _ _ _ => origin;
     zlib_unzip := unzip;
     Buffer_toString := map Byte.to_N;
     onTextResponse := fun _ _ text headers _ => Some (Text text, headers);
     onOtherResponse := fun _ _ data headers _ => Some (Bytes data, headers);
     onConnect := fun _ _ => Some (result decision);
     net_connect := fun _ _ => None;
     tls_sign := fun host => "leaf certificate for " +:+ host |}.

Definition decide (r : RequestDecision) : DecisionObject :=
  {| result := r; d_headers := None; redirectLocation := JNull;
     redirectText := Text [] |}.

Definition redirectTo (location : string) : DecisionObject :=
  {| result := Redirect; d_headers := None; redirectLocation := JValue location;
     redirectText := Text [] |}.

Definition reply (headers : ReqHeaders) (body : Buffer) : RemoteRes :=
  {| statusCode := 200; statusMessage := "OK"; res_headers := headers;
     res_chunks := [body]; res_completion := Response_ended |}.

(** [GET http://example.test/] with one header object at location 0. *)
Definition get : LocalReq :=
  {| req_url := "http://example.test/"; req_method := "GET";
     req_httpVersion := "1.1"; req_headers := 0%nat; req_auth := None;
     req_chunks := []; req_completion := Ended |}.

Definition heap0 : Heap :=
  {[ 0%nat := <["accept-encoding" := "br"]> {[ "accept" := "image/png, */*" ]} ]}.

(** An origin that pins its key. *)
Definition pinned : RemoteRes :=
  reply (<["public-key-pins" := "max-age=5184000"]> {[ "content-type" := "text/plain" ]})
        (ascii_bytes "hello").

(** An origin that sends a compressed page. *)
Definition zipped : RemoteRes :=
  reply (<["content-encoding" := "GZip"]> {[ "content-type" := "text/html; charset=utf-8" ]})
        (x1f :: x8b :: ascii_bytes "<b>hi</b>").

(** An origin that names no content type and sends a body that does not
    inflate. *)
Definition untyped_garbled : RemoteRes :=
  reply {[ "content-encoding" := "gzip" ]} (ascii_bytes "junk").

(** [CONNECT example.test:443] *)
Definition connect : LocalReq :=
  {| req_url := "example.test:443"; req_method := "CONNECT";
     req_httpVersion := "1.1"; req_headers := 0%nat; req_auth := None;
     req_chunks := []; req_completion := Ended |}.

Definition clientHello : Buffer := [x16; x03; x01; x00; x2a].

End Scenario.

(** * Properties *)

(** ** Strings *)

Lemma eqb_prefix s t : String.eqb s t = true -> String.prefix t s = true.
Proof.
  intros H%String.eqb_eq; subst t.
  induction s as [|c s IH]; simpl; [reflexivity|].
  destruct (ascii_dec c c); [exact IH | congruence].
Qed.

Lemma endsWith_includes s suf : JS.endsWith s suf = true -> JS.includes s suf = true.
Proof.
  induction s as [|c s IH]; cbn [JS.endsWith JS.includes].
  - rewrite !orb_false_r. apply eqb_prefix.
  - intros [H|H]%orb_true_iff.
    + rewrite (eqb_prefix _ _ H). reflexivity.
    + rewrite (IH H). apply orb_true_r.
Qed.

Lemma includes_tail c s sub : JS.includes s sub = true -> JS.includes (String c s) sub = true.
Proof. intros H. simpl. rewrite H. apply orb_true_r. Qed.

(** An entry ending in [/*] contains a star. *)
Lemma endsWith_star s : JS.endsWith s "/*" = true -> JS.includes s "*" = true.
Proof.
  induction s as [|c s IH]; [discriminate|].
  cbn [JS.endsWith]. intros [H|H]%orb_true_iff.
  - apply String.eqb_eq in H. rewrite H. reflexivity.
  - apply includes_tail, IH, H.
Qed.

Lemma typeWildcard_not_fullySpecified e : typeWildcard e = true -> fullySpecified e = false.
Proof.
  unfold typeWildcard, fullySpecified. intros [H _]%andb_true_iff.
  rewrite (endsWith_star _ H). apply andb_false_r.
Qed.

Lemma typeWildcard_truthy e : typeWildcard e = true -> JS.truthy (Some e) = true.
Proof.
  unfold typeWildcard. intros [H _]%andb_true_iff.
  destruct e; [discriminate | reflexivity].
Qed.

Lemma typeWildcard_not_any e : typeWildcard e = true -> String.eqb e "*/*" = false.
Proof. unfold typeWildcard. intros [_ H]%andb_true_iff. apply negb_true_iff, H. Qed.

Lemma anyWildcard_eq e : anyWildcard e = true -> e = "*/*".
Proof. apply String.eqb_eq. Qed.

Lemma endsWith_split e : JS.endsWith e "/*" = typeWildcard e || anyWildcard e.
Proof.
  unfold typeWildcard, anyWildcard.
  destruct (String.eqb_spec e "*/*") as [->|_]; [reflexivity|].
  cbn [negb]. rewrite andb_true_r, orb_false_r. reflexivity.
Qed.

(** ** [getType] *)

(** One round of the loop, its tests named as the specification names them. *)
Lemma getType_loop_step p rest bestGuess :
  getType_loop (p :: rest) bestGuess =
  let entry := JS.trim p in
  if negb (JS.truthy bestGuess) && anyWildcard entry then
    getType_loop rest (Some entry)
  else if (typeWildcard entry || anyWildcard entry) &&
          (negb (JS.truthy bestGuess) || JS.strictEq bestGuess "*/*") then
    getType_loop rest (Some entry)
  else if fullySpecified entry then Some entry
  else getType_loop rest bestGuess.
Proof. cbn [getType_loop]. rewrite endsWith_split. reflexivity. Qed.

(** The three kinds of entry exclude one another. *)
Lemma entry_kinds e :
  (anyWildcard e = true -> typeWildcard e = false /\ fullySpecified e = false) /\
  (typeWildcard e = true -> fullySpecified e = false).
Proof.
  split.
  - intros ->%anyWildcard_eq. split; reflexivity.
  - apply typeWildcard_not_fullySpecified.
Qed.

Ltac entry_cases e :=
  let Ha := fresh "Hany" in
  let Ht := fresh "Htype" in
  let Hf := fresh "Hfull" in
  destruct (anyWildcard e) eqn:Ha;
  [ destruct (proj1 (entry_kinds e) Ha) as [Ht Hf]; rewrite ?Ht, ?Hf
  | destruct (typeWildcard e) eqn:Ht;
    [ pose proof (proj2 (entry_kinds e) Ht) as Hf; rewrite ?Hf
    | destruct (fullySpecified e) eqn:Hf ] ];
  cbn [negb andb orb].

(** Once a [type/*] entry is held, only a fully-specified entry replaces it. *)
Lemma getType_loop_typeWildcard parts t :
  typeWildcard t = true ->
  getType_loop parts (Some t) =
  Some (default t (find fullySpecified (map JS.trim parts))).
Proof.
  intros Ht. induction parts as [|p rest IH]; [reflexivity|].
  rewrite getType_loop_step. cbn [map find]. cbv zeta.
  rewrite (typeWildcard_truthy _ Ht). cbn [negb andb orb].
  unfold JS.strictEq. rewrite (typeWildcard_not_any _ Ht), andb_false_r.
  destruct (fullySpecified (JS.trim p)); [reflexivity | exact IH].
Qed.

(** While [*/*] is held, the first [type/*] entry replaces it. *)
Lemma getType_loop_anyWildcard parts :
  getType_loop parts (Some "*/*") =
  match find fullySpecified (map JS.trim parts) with
  | Some e => Some e
  | None => Some (default "*/*" (find typeWildcard (map JS.trim parts)))
  end.
Proof.
  induction parts as [|p rest IH]; [reflexivity|].
  rewrite getType_loop_step. cbn [map find]. cbv zeta.
  change (JS.truthy (Some "*/*")) with true.
  change (JS.strictEq (Some "*/*") "*/*") with true.
  cbn [negb andb orb]. rewrite andb_true_r.
  entry_cases (JS.trim p); try exact IH; try reflexivity.
  - rewrite (anyWildcard_eq _ Hany). exact IH.
  - rewrite (getType_loop_typeWildcard _ _ Htype).
    destruct (find fullySpecified (map JS.trim rest)); reflexivity.
Qed.

(** The loop of [getType] selects the preferred entry. *)
Lemma getType_loop_preferred parts :
  getType_loop parts None = preferred (map JS.trim parts).
Proof.
  unfold preferred. induction parts as [|p rest IH]; [reflexivity|].
  rewrite getType_loop_step. cbn [map find JS.truthy]. cbv zeta.
  cbn [negb andb orb]. rewrite andb_true_r.
  entry_cases (JS.trim p); try exact IH; try reflexivity.
  - rewrite (anyWildcard_eq _ Hany), getType_loop_anyWildcard.
    destruct (find fullySpecified (map JS.trim rest)); [reflexivity|].
    destruct (find typeWildcard (map JS.trim rest)); reflexivity.
  - rewrite (getType_loop_typeWildcard _ _ Htype).
    destruct (find fullySpecified (map JS.trim rest)); reflexivity.
Qed.

Example getType_prefers_precise :
  getType (Some "text/html, */*") None false = "text/html" /\
  getType (Some "image/*;q=0.8, */*;q=0.5, application/json") None true = "application/json".
Proof. split; reflexivity. Qed.

Example getType_wildcards :
  getType (Some " */* , image/* , audio/*") None false = "image/*" /\
  getType (Some "*/*, image/*") (Some "x/y") true = "x/y" /\
  getType (Some "*/*") None false = "*/*".
Proof. repeat split. Qed.

Example isText_of_getType :
  isText (Some (getType (Some "text/html, */*") None false)) = true /\
  isText (Some (getType (Some "image/png") None false)) = false /\
  isText (Some (getType (Some "application/xhtml+xml") None false)) = true.
Proof. repeat split. Qed.

(** Every selected entry is a non-empty string. *)
Lemma preferred_truthy entries e : preferred entries = Some e -> JS.truthy (Some e) = true.
Proof.
  unfold preferred. intros H.
  assert (fullySpecified e = true \/ typeWildcard e = true \/ anyWildcard e = true) as Hk.
  { destruct (find fullySpecified entries) eqn:H1.
    { injection H as ->. left. exact (proj2 (find_some _ _ H1)). }
    destruct (find typeWildcard entries) eqn:H2.
    { injection H as ->. right; left. exact (proj2 (find_some _ _ H2)). }
    right; right. exact (proj2 (find_some _ _ H)). }
  destruct e; [|reflexivity].
  destruct Hk as [Hk|[Hk|Hk]]; discriminate Hk.
Qed.

(** C9. [getType] (the specification's [parseAcceptedType]) splits its input
    on [,] and [;], trims every piece and returns the first fully-specified
    entry (a slash and no star); failing that the first [type/*] entry, then
    [*/*]; it returns the default when nothing was selected, in particular on
    the empty and on the missing input, and when [noWildcard] is set and the
    selected entry contains a star. *)
Theorem getType_parseAcceptedType :
  (forall str def noWildcard,
     getType str def noWildcard = parseAcceptedType_spec str def noWildcard) /\
  (forall def noWildcard,
     getType (Some EmptyString) def noWildcard = default "text/html" def /\
     getType None def noWildcard = default "text/html" def).
Proof.
  split; [|intros; split; reflexivity].
  intros str def noWildcard. unfold getType, parseAcceptedType_spec.
  rewrite getType_loop_preferred.
  destruct (preferred _) as [e|] eqn:Hp; [|reflexivity].
  rewrite (preferred_truthy _ _ Hp). reflexivity.
Qed.

(** ** Bodies *)

Lemma encodeUnit_length u :
  length (Utf8.encodeUnit u) =
  if (u <? 0x80)%N then 1%nat else if (u <? 0x800)%N then 2%nat else 3%nat.
Proof. unfold Utf8.encodeUnit. repeat case_match; reflexivity. Qed.

(** [Buffer.byteLength] of a string counts the bytes [write] encodes. *)
Lemma utf8_byteLength_encode s : Utf8.byteLength s = N.of_nat (length (Utf8.encode s)).
Proof.
  assert (forall n s, (length s <= n)%nat ->
            Utf8.byteLength s = N.of_nat (length (Utf8.encode s))) as H.
  { clear s. induction n as [|n IH]; intros s Hs.
    { destruct s; [reflexivity | simpl in Hs; lia]. }
    destruct s as [|u rest]; [reflexivity|].
    cbn [Utf8.byteLength Utf8.encode]. simpl in Hs.
    assert (Utf8.byteLength rest = N.of_nat (length (Utf8.encode rest))) as Hrest
      by (apply IH; lia).
    destruct (Utf8.isHighSurrogate u) eqn:Hhi.
    - assert ((u <? 0x80)%N = false /\ (u <? 0x800)%N = false) as [-> ->].
      { unfold Utf8.isHighSurrogate in Hhi. apply andb_true_iff in Hhi as [H1 _].
        apply N.leb_le in H1. split; apply N.ltb_ge; lia. }
      destruct rest as [|v rest']; [reflexivity|].
      destruct (Utf8.isLowSurrogate v).
      + rewrite length_app. cbn [Utf8.encodePair length]. simpl in Hs.
        rewrite (IH rest') by lia. lia.
      + rewrite length_app, Hrest. cbn [Utf8.replacement length]. lia.
    - destruct (Utf8.isLowSurrogate u) eqn:Hlo.
      + assert ((u <? 0x80)%N = false /\ (u <? 0x800)%N = false) as [-> ->].
        { unfold Utf8.isLowSurrogate in Hlo. apply andb_true_iff in Hlo as [H1 _].
          apply N.leb_le in H1. split; apply N.ltb_ge; lia. }
        rewrite length_app, Hrest. cbn [Utf8.replacement length]. lia.
      + rewrite length_app, encodeUnit_length, Hrest.
        destruct (u <? 0x80)%N; [lia|]. destruct (u <? 0x800)%N; lia. }
  apply (H (length s)). lia.
Qed.

Lemma byteLength_written d : Buffer_byteLength d = N.of_nat (length (written_bytes d)).
Proof. destruct d; [reflexivity | apply utf8_byteLength_encode]. Qed.

(** ** Finalization *)

(** What [onDone] forwards: the length of the body it writes under
    [content-length], no key spelled [Public-Key-Pins], every other key as
    the patcher left it. *)
Lemma finalize_onDone_forwards remoteRes headers responseData :
  exists forwarded,
    finalize_onDone remoteRes headers responseData =
      [ LocalRes_writeHead (statusCode remoteRes) (statusMessage remoteRes) forwarded;
        LocalRes_write responseData; LocalRes_end ] /\
    forwarded !! "content-length" =
      Some (HNum (N.of_nat (length (written_bytes responseData)))) /\
    forwarded !! "Public-Key-Pins" = None /\
    (forall k, k <> "content-length" -> k <> "Public-Key-Pins" ->
               forwarded !! k = headers !! k).
Proof.
  eexists. split; [reflexivity|]. split; [|split].
  - rewrite lookup_delete_ne by discriminate.
    rewrite lookup_insert_eq, byteLength_written. reflexivity.
  - apply lookup_delete_eq.
  - intros k H1 H2. rewrite lookup_delete_ne by congruence.
    apply lookup_insert_ne. congruence.
Qed.

(** A key that Node lower-cased survives the deletion. *)
Lemma finalize_onDone_keeps_lowercase remoteRes headers responseData v forwarded :
  headers !! "public-key-pins" = Some v ->
  In (LocalRes_writeHead (statusCode remoteRes) (statusMessage remoteRes) forwarded)
     (finalize_onDone remoteRes headers responseData) ->
  has_header "Public-Key-Pins" forwarded.
Proof.
  intros Hv [H|[H|[H|[]]]]; try discriminate H.
  injection H as <-. exists "public-key-pins", v. split; [|reflexivity].
  rewrite lookup_delete_ne by discriminate.
  rewrite lookup_insert_ne by discriminate. exact Hv.
Qed.

(** C1. The origin of [Scenario.pinned] sends [Public-Key-Pins]; Node hands
    it over under the key [public-key-pins], the engine deletes the key
    [Public-Key-Pins], and the response forwarded to the client still
    carries the header (with the right [content-length], 5). *)
Theorem finalize_forwards_public_key_pins :
  let g := Scenario.world (Scenario.decide Allow) (Responded Scenario.pinned) in
  let forwarded : ResHeaders :=
    <["content-length" := HNum 5]>
      (<["content-encoding" := HStr "identity"]> (HStr <$> res_headers Scenario.pinned)) in
  In (LocalRes_writeHead 200 "OK" forwarded)
     (requestEngine g 0 Scenario.heap0 Scenario.get).1.1 /\
  In (LocalRes_write (Text (map Byte.to_N (Scenario.ascii_bytes "hello"))))
     (requestEngine g 0 Scenario.heap0 Scenario.get).1.1 /\
  has_header "Public-Key-Pins" forwarded.
Proof.
  cbv zeta. split; [|split].
  - vm_compute. do 6 right. left. reflexivity.
  - vm_compute. do 7 right. left. reflexivity.
  - exists "public-key-pins", (HStr "max-age=5184000"). split; reflexivity.
Qed.

(** ** Response handling *)

(** A declared encoding that reads [gzip] or [deflate] in lower case is the
    one the engine inflates. *)
Lemma declared_encoding_inflates v :
  JS.toLowerCase v = "gzip" \/ JS.toLowerCase v = "deflate" ->
  let encoding := if JS.truthy (Some v) then JS.toLowerCase <$> Some v else Some v in
  JS.strictEq encoding "gzip" || JS.strictEq encoding "deflate" = true.
Proof.
  intros H. assert (JS.truthy (Some v) = true) as ->.
  { destruct v; [|reflexivity]. destruct H; discriminate. }
  cbn. destruct H as [-> | ->]; reflexivity.
Qed.

(** The trace of a text response that has to be inflated. *)
Lemma remoteRes_onEnd_inflate g remoteRes referer url id v :
  isText (Some (getType (res_headers remoteRes !! "content-type") None false)) = true ->
  res_headers remoteRes !! "content-encoding" = Some v ->
  JS.toLowerCase v = "gzip" \/ JS.toLowerCase v = "deflate" ->
  remoteRes_onEnd g remoteRes referer url id =
  Zlib_unzip (Buffer_concat (res_chunks remoteRes)) ::
  match zlib_unzip g (Buffer_concat (res_chunks remoteRes)) with
  | inl message =>
      [ Log "WARNING" ("Could not parse server response: " +:+ message);
        LocalRes_destroy ]
  | inr result =>
      finalize g remoteRes
        (<["content-encoding" := HStr "identity"]> (HStr <$> res_headers remoteRes))
        referer url true result id
  end.
Proof.
  intros Htext Henc Hv. unfold remoteRes_onEnd.
  rewrite Htext, Henc, (declared_encoding_inflates v Hv). reflexivity.
Qed.

(** C2. A text response whose [Content-Encoding], read without regard to
    case, is [gzip] or [deflate]: when the body inflates, [onTextResponse]
    receives the text of the inflated body together with headers that say
    [content-encoding: identity], and the forwarded [content-encoding] is
    what the patcher left there; when it does not inflate, a warning is
    logged and the client side is destroyed, and [onTextResponse] is not
    called. *)
Theorem text_response_is_inflated g remoteRes referer url id v :
  isText (Some (getType (res_headers remoteRes !! "content-type") None false)) = true ->
  res_headers remoteRes !! "content-encoding" = Some v ->
  JS.toLowerCase v = "gzip" \/ JS.toLowerCase v = "deflate" ->
  let data := Buffer_concat (res_chunks remoteRes) in
  let handed : ResHeaders :=
    <["content-encoding" := HStr "identity"]> (HStr <$> res_headers remoteRes) in
  let trace := remoteRes_onEnd g remoteRes referer url id in
  match zlib_unzip g data with
  | inr inflated =>
      let text := Buffer_toString g inflated in
      handed !! "content-encoding" = Some (HStr "identity") /\
      match onTextResponse g referer url text handed id with
      | Some (patched, headers') =>
          exists forwarded,
            trace = [ Zlib_unzip data;
                      Call_onTextResponse referer url text handed id;
                      LocalRes_writeHead (statusCode remoteRes) (statusMessage remoteRes) forwarded;
                      LocalRes_write patched; LocalRes_end ] /\
            forwarded !! "content-encoding" = headers' !! "content-encoding"
      | None =>
          trace = [ Zlib_unzip data; Call_onTextResponse referer url text handed id ]
      end
  | inl message =>
      trace = [ Zlib_unzip data;
                Log "WARNING" ("Could not parse server response: " +:+ message);
                LocalRes_destroy ] /\
      existsb is_onTextResponse trace = false
  end.
Proof.
  intros Htext Henc Hv data handed trace. subst trace.
  rewrite (remoteRes_onEnd_inflate g remoteRes referer url id v Htext Henc Hv).
  fold data. destruct (zlib_unzip g data) as [message|inflated].
  - split; reflexivity.
  - split; [apply lookup_insert_eq|].
    unfold finalize. fold handed.
    destruct (onTextResponse g referer url (Buffer_toString g inflated) handed id)
      as [[patched headers']|]; [|reflexivity].
    destruct (finalize_onDone_forwards remoteRes headers' patched)
      as (forwarded & -> & _ & _ & Hk).
    exists forwarded. split; [reflexivity|]. apply Hk; discriminate.
Qed.

(** The compressed page of [Scenario.zipped] reaches the patcher inflated. *)
Lemma text_response_is_inflated_witness :
  let g := Scenario.world (Scenario.decide Allow) (Responded Scenario.zipped) in
  let handed : ResHeaders :=
    <["content-encoding" := HStr "identity"]> (HStr <$> res_headers Scenario.zipped) in
  handed !! "content-encoding" = Some (HStr "identity") /\
  exists forwarded,
    remoteRes_onEnd g Scenario.zipped None "http://example.test/" 0 =
      [ Zlib_unzip (x1f :: x8b :: Scenario.ascii_bytes "<b>hi</b>");
        Call_onTextResponse None "http://example.test/"
          (map Byte.to_N (Scenario.ascii_bytes "<b>hi</b>")) handed 0;
        LocalRes_writeHead 200 "OK" forwarded;
        LocalRes_write (Text (map Byte.to_N (Scenario.ascii_bytes "<b>hi</b>")));
        LocalRes_end ] /\
    forwarded !! "content-encoding" = handed !! "content-encoding".
Proof.
  exact (text_response_is_inflated
           (Scenario.world (Scenario.decide Allow) (Responded Scenario.zipped))
           Scenario.zipped None "http://example.test/" 0 "GZip"
           eq_refl eq_refl (or_introl eq_refl)).
Defined.

(** The engine inflates only a body whose declared encoding reads [gzip]
    or [deflate] in lower case. *)
Lemma inflates_declared_encoding (enc : option string) :
  (let encoding := if JS.truthy enc then JS.toLowerCase <$> enc else enc in
   JS.strictEq encoding "gzip" || JS.strictEq encoding "deflate") = true ->
  exists v, enc = Some v /\ (JS.toLowerCase v = "gzip" \/ JS.toLowerCase v = "deflate").
Proof.
  destruct enc as [v|]; [|discriminate]. cbv zeta.
  destruct (JS.truthy (Some v)) eqn:Ht.
  - cbn. intros [H|H]%orb_true_iff; apply String.eqb_eq in H; eauto.
  - destruct v; [discriminate | discriminate Ht].
Qed.

(** [finalize] with [isText] set calls the text hook and only that one. *)
Lemma finalize_text_hook g remoteRes headers referer url data id :
  existsb is_onTextResponse (finalize g remoteRes headers referer url true data id) = true /\
  existsb is_onOtherResponse (finalize g remoteRes headers referer url true data id) = false.
Proof.
  unfold finalize. split; [reflexivity|].
  destruct (onTextResponse g _ _ _ _ _) as [[patched headers']|]; reflexivity.
Qed.

(** C10, as the claim states it, fails: [Scenario.untyped_garbled] has no
    [Content-Type], declares [gzip] and does not inflate, and its body is
    handed to no hook. *)
Lemma untyped_response_counterexample :
  let g := Scenario.world (Scenario.decide Allow) (Responded Scenario.untyped_garbled) in
  res_headers Scenario.untyped_garbled !! "content-type" = None /\
  existsb is_onTextResponse
    (remoteRes_onEnd g Scenario.untyped_garbled None "http://example.test/" 0) = false.
Proof. split; reflexivity. Qed.

(** C10, amended. A response without [Content-Type] is classified as text
    ([getType] falls back to [text/html], which [isText] accepts): its body
    is never handed to [onOtherResponse], and it is handed to
    [onTextResponse] unless it has to be inflated and does not inflate, in
    which case the engine logs a warning and destroys the client side. *)
Theorem untyped_response_is_text g remoteRes referer url id :
  res_headers remoteRes !! "content-type" = None ->
  let data := Buffer_concat (res_chunks remoteRes) in
  let trace := remoteRes_onEnd g remoteRes referer url id in
  isText (Some (getType (res_headers remoteRes !! "content-type") None false)) = true /\
  existsb is_onOtherResponse trace = false /\
  (existsb is_onTextResponse trace = false ->
   exists v message,
     res_headers remoteRes !! "content-encoding" = Some v /\
     (JS.toLowerCase v = "gzip" \/ JS.toLowerCase v = "deflate") /\
     zlib_unzip g data = inl message /\
     trace = [ Zlib_unzip data;
               Log "WARNING" ("Could not parse server response: " +:+ message);
               LocalRes_destroy ]).
Proof.
  intros Hct data trace. subst trace. unfold remoteRes_onEnd. rewrite Hct.
  change (isText (Some (getType None None false))) with true. cbv iota.
  split; [reflexivity|]. fold data.
  set (enc := res_headers remoteRes !! "content-encoding").
  destruct (JS.strictEq _ "gzip" || JS.strictEq _ "deflate") eqn:Hz.
  - apply (inflates_declared_encoding enc) in Hz as (v & Hv & Hlow).
    destruct (zlib_unzip g data) as [message|inflated].
    + split; [reflexivity|]. intros _. exists v, message. auto.
    + cbn [existsb is_onOtherResponse is_onTextResponse orb].
      destruct (finalize_text_hook g remoteRes
                  (<["content-encoding" := HStr "identity"]> (HStr <$> res_headers remoteRes))
                  referer url inflated id) as [-> ->].
      split; [reflexivity | discriminate].
  - destruct (finalize_text_hook g remoteRes
                (<["content-encoding" := HStr "identity"]> (HStr <$> res_headers remoteRes))
                referer url data id) as [-> ->].
    split; [reflexivity | discriminate].
Qed.

(** The garbled, untyped response of the scenario ends in the warning. *)
Lemma untyped_response_is_text_witness :
  let g := Scenario.world (Scenario.decide Allow) (Responded Scenario.untyped_garbled) in
  let trace := remoteRes_onEnd g Scenario.untyped_garbled None "http://example.test/" 0 in
  existsb is_onOtherResponse trace = false /\
  (existsb is_onTextResponse trace = false ->
   exists v message,
     res_headers Scenario.untyped_garbled !! "content-encoding" = Some v /\
     (JS.toLowerCase v = "gzip" \/ JS.toLowerCase v = "deflate") /\
     Scenario.unzip (Scenario.ascii_bytes "junk") = inl message /\
     trace = [ Zlib_unzip (Scenario.ascii_bytes "junk");
               Log "WARNING" ("Could not parse server response: " +:+ message);
               LocalRes_destroy ]).
Proof.
  exact (proj2 (untyped_response_is_text
                  (Scenario.world (Scenario.decide Allow) (Responded Scenario.untyped_garbled))
                  Scenario.untyped_garbled None "http://example.test/" 0 eq_refl)).
Defined.

(** ** The request engine: what reaches the client and the origin *)

Lemma existsb_false_In {A} (f : A -> bool) l x : existsb f l = false -> In x l -> f x = false.
Proof.
  intros H Hin. destruct (f x) eqn:Hx; [|reflexivity].
  rewrite <- H. symmetry. apply existsb_exists. eauto.
Qed.

(** Nothing in the handling of a response opens a connection or calls the
    request patcher. *)
Lemma onRemoteRes_quiet g remoteRes referer url id :
  existsb is_Http_request (onRemoteRes g remoteRes referer url id) = false /\
  existsb is_onRequest (onRemoteRes g remoteRes referer url id) = false.
Proof.
  unfold onRemoteRes. destruct (res_completion remoteRes) as [|events].
  - unfold remoteRes_onEnd, finalize, finalize_onDone.
    split; repeat case_match; reflexivity.
  - induction events as [|[message|] events IH]; cbn; auto.
Qed.

(** The one upstream request of [proxyRequest] carries the header object
    that [options.headers] points to. *)
Lemma proxyRequest_trace g heap localReq options payload id :
  exists rest,
    proxyRequest g heap localReq options payload id =
      Http_request (bool_decide (protocol (o_url options) = Some "https:")) options
        (deref heap (o_headers options)) ::
      Request_write payload :: Request_end :: rest /\
    existsb is_Http_request rest = false /\
    existsb is_onRequest rest = false.
Proof.
  unfold proxyRequest. eexists. split; [reflexivity|].
  destruct (http_request g _ _ _ _) as [message|remoteRes].
  - split; reflexivity.
  - apply onRemoteRes_quiet.
Qed.

Lemma deref_insert heap l h : deref (<[l := h]> heap) l = h.
Proof. unfold deref. rewrite lookup_insert_eq. reflexivity. Qed.

(** After the patcher called back, every upstream request goes out with
    [accept-encoding: gzip, deflate], provided [options.headers] is the
    header object of the request. *)
Lemma onRequest_callback_requests g heap localReq options id decision payload :
  o_headers options = req_headers localReq ->
  let trace := (onRequest_callback g heap localReq options id decision payload).1 in
  existsb is_onRequest trace = false /\
  forall secure options' headers,
    In (Http_request secure options' headers) trace ->
    headers !! "accept-encoding" = Some "gzip, deflate".
Proof.
  intros Halias. cbv zeta. unfold onRequest_callback.
  set (heap' := <[req_headers localReq := _]> heap).
  assert (forall o, o_headers o = req_headers localReq ->
            existsb is_onRequest (proxyRequest g heap' localReq o payload id) = false /\
            forall secure options' headers,
              In (Http_request secure options' headers)
                 (proxyRequest g heap' localReq o payload id) ->
              headers !! "accept-encoding" = Some "gzip, deflate") as Hp.
  { intros o Ho.
    destruct (proxyRequest_trace g heap' localReq o payload id) as (rest & -> & Hq & Hr).
    split; [exact Hr|].
    intros secure options' headers [H|[H|[H|H]]]; try discriminate H.
    - injection H as _ _ <-. rewrite Ho. unfold heap'.
      rewrite deref_insert. apply lookup_insert_eq.
    - discriminate (existsb_false_In _ _ _ Hq H). }
  assert (forall t : list Action, existsb is_Http_request t = false ->
            forall secure options' headers,
              In (Http_request secure options' headers) t ->
              headers !! "accept-encoding" = Some "gzip, deflate") as Hnone.
  { intros t Ht secure options' headers H. discriminate (existsb_false_In _ _ _ Ht H). }
  destruct (result decision); cbn [fst]; try (split; [reflexivity | apply Hnone; reflexivity]).
  - apply Hp, Halias.
  - destruct (redirectLocation decision) as [| |location]; cbn [fst];
      try (split; [reflexivity | apply Hnone; reflexivity]).
    destruct (url_parse g location) as [message|u]; cbn [fst];
      try (split; [reflexivity | apply Hnone; reflexivity]).
    apply Hp. exact Halias.
Qed.

(** A transaction either never reaches the request patcher, and then
    touches neither the origin nor the client connection except to destroy
    it, or it calls the patcher once and goes on with its answer. *)
Lemma requestEngine_trace g counter heap localReq :
  let trace := (requestEngine g counter heap localReq).1.1 in
  (existsb is_onRequest trace = false /\ existsb is_Http_request trace = false) \/
  exists u warn,
    url_parse g (req_url localReq) = inr u /\
    existsb is_onRequest warn = false /\
    existsb is_Http_request warn = false /\
    existsb writes_to_client warn = false /\
    existsb is_destroy warn = false /\
    let headers := deref heap (req_headers localReq) in
    let referer := headers !! "referer" in
    let payload := Buffer_concat (req_chunks localReq) in
    trace =
      warn ++
      Call_onRequest referer (req_url localReq) payload headers counter ::
      match onRequest g referer (req_url localReq) payload headers counter with
      | None => []
      | Some (decision, payload', headers') =>
          (onRequest_callback g (<[req_headers localReq := headers']> heap) localReq
             (requestOptions g heap localReq u) counter decision payload').1
      end.
Proof.
  cbv zeta. unfold requestEngine.
  destruct (url_parse g (req_url localReq)) as [message|u]; [left; split; reflexivity|].
  destruct (_ || _); [left; split; reflexivity|].
  destruct (req_completion localReq); try (left; split; reflexivity).
  right. unfold localReq_onEnd.
  set (w := if (_ && _) then _ else _).
  exists u, (Log "INFO" ("Received a REQUEST request: " +:+ req_url localReq) :: w).
  split; [reflexivity|].
  assert (existsb is_onRequest w = false /\ existsb is_Http_request w = false /\
          existsb writes_to_client w = false /\
          existsb is_destroy w = false) as (? & ? & ? & ?).
  { unfold w. destruct (_ && _); repeat split; reflexivity. }
  repeat (split; [assumption|]).
  destruct (onRequest g _ _ _ _ _) as [[[decision payload'] headers']|]; [|reflexivity].
  destruct (onRequest_callback _ _ _ _ _ _ _) as [t h]. reflexivity.
Qed.

(** C3. Every upstream request of a transaction goes out with
    [accept-encoding: gzip, deflate], whatever the header object of the
    client's request held and whatever the patcher did to it: the engine
    overwrites the entry of [localReq.headers] after the patcher called
    back, and [options.headers] is that same object. *)
Theorem upstream_accept_encoding g counter heap localReq secure options headers :
  In (Http_request secure options headers) (requestEngine g counter heap localReq).1.1 ->
  headers !! "accept-encoding" = Some "gzip, deflate".
Proof.
  intros Hin.
  destruct (requestEngine_trace g counter heap localReq)
    as [[_ Hq] | (u & warn & _ & _ & Hw & _ & _ & Htrace)].
  { discriminate (existsb_false_In _ _ _ Hq Hin). }
  cbv zeta in Htrace. rewrite Htrace in Hin.
  apply in_app_or in Hin as [Hin | [Hin | Hin]].
  - discriminate (existsb_false_In _ _ _ Hw Hin).
  - discriminate Hin.
  - destruct (onRequest g _ _ _ _ _) as [[[decision payload'] headers']|]; [|destruct Hin].
    eapply (onRequest_callback_requests g); [|exact Hin]. reflexivity.
Qed.

(** The request is issued when the patcher allows it or redirects it to a
    location that parses; these are the only ways. *)
Lemma upstream_request_issued g counter heap localReq decision payload' headers' :
  let headers := deref heap (req_headers localReq) in
  let referer := headers !! "referer" in
  let payload := Buffer_concat (req_chunks localReq) in
  let trace := (requestEngine g counter heap localReq).1.1 in
  existsb is_onRequest trace = true ->
  onRequest g referer (req_url localReq) payload headers counter
    = Some (decision, payload', headers') ->
  (existsb is_Http_request trace = true <->
   result decision = Allow \/
   (result decision = Redirect /\
    exists location u, redirectLocation decision = JValue location /\
                       url_parse g location = inr u)).
Proof.
  cbv zeta. intros Hcall Hpatch.
  destruct (requestEngine_trace g counter heap localReq)
    as [[Hq _] | (u & warn & _ & _ & Hw & _ & _ & Htrace)].
  { rewrite Hq in Hcall. discriminate. }
  cbv zeta in Htrace. rewrite Htrace, Hpatch. clear Htrace.
  rewrite existsb_app, Hw. cbn [orb existsb is_Http_request].
  unfold onRequest_callback.
  set (heap' := <[req_headers localReq := <["accept-encoding":="gzip, deflate"]> _]> _).
  assert (forall o, existsb is_Http_request (proxyRequest g heap' localReq o payload' counter) = true)
    as Hp by (intros o; reflexivity).
  destruct (result decision); cbn [fst].
  - rewrite Hp. split; auto.
  - split; [discriminate | intros [H|[H _]]; discriminate H].
  - split; [discriminate | intros [H|[H _]]; discriminate H].
  - destruct (redirectLocation decision) as [| |location]; cbn [fst].
    + split; [discriminate | intros [H|(_ & ? & ? & H & _)]; discriminate H].
    + split; [discriminate | intros [H|(_ & ? & ? & H & _)]; discriminate H].
    + destruct (url_parse g location) as [message|u'] eqn:Hu; cbn [fst].
      * split; [discriminate|]. intros [H|(_ & l & u' & H & Hu')]; [discriminate H|].
        injection H as <-. rewrite Hu in Hu'. discriminate.
      * rewrite Hp. split; eauto 8.
  - split; [discriminate | intros [H|[H _]]; discriminate H].
  - split; [discriminate | intros [H|[H _]]; discriminate H].
Qed.

(** The client of the scenario asks for [br]; the origin is asked for
    [gzip, deflate], also after a redirect. *)
Lemma upstream_accept_encoding_witness :
  let g := Scenario.world (Scenario.redirectTo "https://example.test/other")
             (Responded Scenario.zipped) in
  let options :=
    Object_assign (requestOptions g Scenario.heap0 Scenario.get
                     {| protocol := Some "http:"; auth := None;
                        hostname := Some "example.test"; port := None;
                        path := Some "/"; href := "http://example.test/" |})
      {| protocol := Some "https:"; auth := None;
         hostname := Some "example.test"; port := None;
         path := Some "/"; href := "https://example.test/other" |} in
  let headers : ReqHeaders :=
    <["accept-encoding" := "gzip, deflate"]> {[ "accept" := "image/png, */*" ]} in
  deref Scenario.heap0 0%nat !! "accept-encoding" = Some "br" /\
  In (Http_request true options headers)
     (requestEngine g 0 Scenario.heap0 Scenario.get).1.1 /\
  headers !! "accept-encoding" = Some "gzip, deflate".
Proof.
  intros g options headers.
  assert (In (Http_request true options headers)
             (requestEngine g 0 Scenario.heap0 Scenario.get).1.1) as Hin.
  { vm_compute. right. right. left. reflexivity. }
  split; [reflexivity|]. split; [exact Hin|].
  exact (upstream_accept_encoding g 0 Scenario.heap0 Scenario.get true options headers Hin).
Defined.

(** C8. When the request patcher answers [Deny] for a transaction, the
    trace of the transaction ends with the destruction of the client
    response stream, nothing is written to the client and no upstream
    request is made. *)
Theorem request_deny g counter heap localReq referer url payload headers id
    decision payload' headers' :
  let trace := (requestEngine g counter heap localReq).1.1 in
  In (Call_onRequest referer url payload headers id) trace ->
  onRequest g referer url payload headers id = Some (decision, payload', headers') ->
  result decision = Deny ->
  (exists before, trace = before ++ [LocalRes_destroy] /\
                  existsb is_destroy before = false) /\
  existsb writes_to_client trace = false /\
  existsb is_Http_request trace = false.
Proof.
  cbv zeta. intros Hin Hpatch Hdeny.
  destruct (requestEngine_trace g counter heap localReq)
    as [[Hq _] | (u & warn & _ & Hr & Hw & Hc & Hd & Htrace)].
  { discriminate (existsb_false_In _ _ _ Hq Hin). }
  cbv zeta in Htrace. rewrite Htrace in Hin |- *. clear Htrace.
  assert (onRequest g (deref heap (req_headers localReq) !! "referer") (req_url localReq)
            (Buffer_concat (req_chunks localReq)) (deref heap (req_headers localReq)) counter
          = Some (decision, payload', headers')) as ->.
  { apply in_app_or in Hin as [Hin | [Hin | Hin]].
    - discriminate (existsb_false_In _ _ _ Hr Hin).
    - injection Hin as <- <- <- <- <-. exact Hpatch.
    - destruct (onRequest g _ _ _ _ _) as [[[d p] h]|]; [|destruct Hin].
      pose proof (proj1 (onRequest_callback_requests g (<[req_headers localReq := h]> heap)
                           localReq (requestOptions g heap localReq u) counter d p eq_refl)) as Hn.
      cbv zeta in Hn. discriminate (existsb_false_In _ _ _ Hn Hin). }
  unfold onRequest_callback. rewrite Hdeny. cbn [fst].
  split; [|split].
  - exists (warn ++ [Call_onRequest (deref heap (req_headers localReq) !! "referer")
                       (req_url localReq) (Buffer_concat (req_chunks localReq))
                       (deref heap (req_headers localReq)) counter]).
    split; [rewrite <- app_assoc; reflexivity|].
    rewrite existsb_app, Hd. reflexivity.
  - rewrite existsb_app, Hc. reflexivity.
  - rewrite existsb_app, Hw. reflexivity.
Qed.

(** The patcher of the scenario denies [GET http://example.test/]. *)
Lemma request_deny_witness :
  let g := Scenario.world (Scenario.decide Deny) (Responded Scenario.pinned) in
  let trace := (requestEngine g 0 Scenario.heap0 Scenario.get).1.1 in
  trace = [ Log "INFO" "Received a REQUEST request: http://example.test/";
            Call_onRequest None "http://example.test/" [] (deref Scenario.heap0 0%nat) 0;
            LocalRes_destroy ] /\
  ((exists before, trace = before ++ [LocalRes_destroy] /\
                   existsb is_destroy before = false) /\
   existsb writes_to_client trace = false /\
   existsb is_Http_request trace = false).
Proof.
  split; [reflexivity|].
  refine (request_deny
            (Scenario.world (Scenario.decide Deny) (Responded Scenario.pinned))
            0 Scenario.heap0 Scenario.get None "http://example.test/" []
            (deref Scenario.heap0 0%nat) 0 (Scenario.decide Deny) (Bytes [])
            (deref Scenario.heap0 0%nat) _ eq_refl eq_refl).
  vm_compute. right. left. reflexivity.
Defined.

(** ** The CONNECT engine: the TLS test *)

(** C4. With at least three bytes in the head, [onHandshake] takes the TLS
    path exactly when the first byte is 0x16, the second 0x03 and the third
    below 0x06, and the loopback to the main proxy server otherwise.  On
    the TLS path it calls [dynamicServer.prepare(host)] (a next tick for a
    known host, [tls.sign] and a new context otherwise), then connects to
    the port of the dynamic server and splices the client socket onto that
    connection; on the other path it prepares nothing, connects to port
    12345 and splices the client socket onto that connection.  The first
    action is the connection to port 12345 exactly when the test fails. *)
Theorem onHandshake_dispatch g ds localHead host port :
  (3 <= length localHead)%nat ->
  let tls :=
    readUInt8 localHead 0 = Some 0x16%N /\ readUInt8 localHead 1 = Some 0x03%N /\
    exists b, readUInt8 localHead 2 = Some b /\ (b < 0x06)%N in
  let tunnel (connected : option string) (failure : string) :=
    match connected with
    | None =>
        [ Pipe_local_to_connection; Pipe_connection_to_local;
          LocalSocket_emit_data localHead; LocalSocket_resume ]
    | Some message => [ Log "ERROR" failure; Throw message ]
    end in
  (tls ->
   onHandshake g ds localHead host port =
     ((if knows ds host then [ Process_nextTick; Prepare_callback host ]
       else [ Tls_sign host; Server_addContext host (tls_sign g host);
              Prepare_callback host ]) ++
      Net_connect (ds_port ds) None ::
      tunnel (net_connect g (ds_port ds) None)
        "An error occured when connecting to dynamic server for encrypted requests handling.",
      if knows ds host then ds else knownHosts_push ds host)) /\
  (~ tls ->
   onHandshake g ds localHead host port =
     (Net_connect 12345 None ::
      tunnel (net_connect g 12345 None)
        "An error occured when backlooping for WebSocket handling.",
      ds)) /\
  (hd_error (onHandshake g ds localHead host port).1 = Some (Net_connect 12345 None)
   <-> ~ tls).
Proof.
  intros Hlen.
  destruct localHead as [|b0 [|b1 [|b2 rest]]]; try (simpl in Hlen; lia).
  unfold onHandshake, readUInt8 in *. cbn [lookup list_lookup fmap option_fmap option_map].
  destruct (_ && _ && _)%N eqn:Htest; cbv zeta.
  - apply andb_true_iff in Htest as [[H0 H1]%andb_true_iff H2].
    apply N.eqb_eq in H0, H1. apply N.ltb_lt in H2.
    assert (Some (to_N b0) = Some 22%N /\ Some (to_N b1) = Some 3%N /\
            exists b, Some (to_N b2) = Some b /\ (b < 6)%N) as Htls.
    { rewrite H0, H1. eauto. }
    unfold tlsPath, prepare, splice.
    split; [|split].
    + intros _. destruct (knows ds host); reflexivity.
    + intros H. contradiction.
    + split; [|intros H; contradiction].
      destruct (knows ds host); discriminate.
  - assert (~ (Some (to_N b0) = Some 22%N /\ Some (to_N b1) = Some 3%N /\
               exists b, Some (to_N b2) = Some b /\ (b < 6)%N)) as Htls.
    { intros (H0 & H1 & b & H2 & Hb). injection H0 as H0. injection H1 as H1.
      injection H2 as <-. apply N.eqb_eq in H0, H1. apply N.ltb_lt in Hb.
      rewrite H0, H1, Hb in Htest. discriminate. }
    unfold loopbackPath, splice.
    split; [|split].
    + intros H. contradiction.
    + intros _. reflexivity.
    + split; [auto | reflexivity].
Qed.

(** The boundary head [16 03 05] for a host met for the first time:
    [tls.sign], a new context, and the connection to the dynamic server on
    port 12346, onto which the client socket is spliced. *)
Lemma onHandshake_dispatch_witness :
  let g := Scenario.world (Scenario.decide Allow) (Responded Scenario.pinned) in
  onHandshake g DynamicServer_new [x16; x03; x05] "example.test" 443
  = ([ Tls_sign "example.test";
       Server_addContext "example.test" (tls_sign g "example.test");
       Prepare_callback "example.test";
       Net_connect 12346 None;
       Pipe_local_to_connection; Pipe_connection_to_local;
       LocalSocket_emit_data [x16; x03; x05]; LocalSocket_resume ],
     knownHosts_push DynamicServer_new "example.test").
Proof.
  refine (proj1 (onHandshake_dispatch
                   (Scenario.world (Scenario.decide Allow) (Responded Scenario.pinned))
                   DynamicServer_new [x16; x03; x05] "example.test" 443 _) _).
  - simpl. lia.
  - split; [reflexivity|]. split; [reflexivity|]. exists 5%N. split; [reflexivity | lia].
Defined.

(** The head [16 03 06] goes back to the main proxy server, as does [GET]. *)
Example onHandshake_boundary g ds rest host port :
  onHandshake g ds (x16 :: x03 :: x05 :: rest) host port
    = tlsPath g ds (x16 :: x03 :: x05 :: rest) host /\
  onHandshake g ds (x16 :: x03 :: x06 :: rest) host port
    = (loopbackPath g (x16 :: x03 :: x06 :: rest), ds) /\
  onHandshake g ds (Scenario.ascii_bytes "GET" ++ rest) host port
    = (loopbackPath g (Scenario.ascii_bytes "GET" ++ rest), ds).
Proof. repeat split. Qed.

(** ** The CONNECT engine: the target *)

Lemma split_nonempty sep s : JS.split sep s <> [].
Proof.
  destruct s as [|c s]; cbn [JS.split]; [discriminate|].
  destruct (sep c); [discriminate|]. destruct (JS.split sep s); discriminate.
Qed.

Lemma join_cons_char sep c w ws :
  JS.join sep (String c w :: ws) = String c (JS.join sep (w :: ws)).
Proof. destruct ws; reflexivity. Qed.

(** Joining the pieces of a split with the separator gives the string back. *)
Lemma join_split s : JS.join ":" (JS.split isColon s) = s.
Proof.
  induction s as [|c s IH]; [reflexivity|]. cbn [JS.split].
  pose proof (split_nonempty isColon s) as Hne.
  destruct (isColon c) eqn:Hc.
  - apply Ascii.eqb_eq in Hc. subst c.
    destruct (JS.split isColon s) as [|w ws]; [contradiction|].
    change (JS.join ":" ("" :: w :: ws)) with (":" +:+ JS.join ":" (w :: ws)).
    rewrite IH. reflexivity.
  - destruct (JS.split isColon s) as [|w ws]; [contradiction|].
    rewrite join_cons_char, IH. reflexivity.
Qed.

(** A colon between two strings separates their pieces. *)
Lemma split_colon a b :
  JS.split isColon (a +:+ ":" +:+ b) = JS.split isColon a ++ JS.split isColon b.
Proof.
  induction a as [|c a IH]; [reflexivity|].
  change (String c a +:+ ":" +:+ b) with (String c (a +:+ ":" +:+ b)).
  cbn [JS.split]. rewrite IH.
  pose proof (split_nonempty isColon a) as Hne.
  destruct (isColon c); [reflexivity|].
  destruct (JS.split isColon a) as [|w ws]; [contradiction | reflexivity].
Qed.

Lemma isDigit_not_colon c : JS.isDigit c = true -> isColon c = false.
Proof.
  unfold JS.isDigit, isColon. intros [H1 H2]%andb_true_iff.
  apply N.leb_le in H1, H2. apply Ascii.eqb_neq. intros ->.
  cbn in H2. lia.
Qed.

(** A string of digits is one piece. *)
Lemma split_digits d : JS.allDigits d = true -> JS.split isColon d = [d].
Proof.
  induction d as [|c d IH]; [reflexivity|]. cbn [JS.allDigits JS.split].
  intros [Hc Hd]%andb_true_iff. rewrite (isDigit_not_colon _ Hc), (IH Hd). reflexivity.
Qed.

Lemma port_clamp n :
  (if ((n <? 0) || (65535 <? n))%N then 443%N else n) =
  (if (n <=? 65535)%N then n else 443%N).
Proof.
  assert ((n <? 0)%N = false) as -> by (apply N.ltb_ge; lia). cbn [orb].
  destruct (N.ltb_spec 65535 n), (N.leb_spec n 65535); lia || reflexivity.
Qed.

(** C5, as the claim states it, fails: the final segment [99999] is all
    digits and out of range, and the engine consumes it all the same. *)
Lemma parseTarget_counterexample :
  parseTarget "example.test:99999" = ("example.test", 443%N) /\
  parseTarget_spec "example.test:99999" = ("example.test:99999", 443%N) /\
  parseTarget "example.test:99999" <> parseTarget_spec "example.test:99999".
Proof. repeat split. discriminate. Qed.

(** C5, amended. The engine splits the target on [:].  A final segment that
    is all digits is consumed, and the port is its value when that is at
    most 65535 and 443 otherwise; the host is what stood before the last
    colon, colons and brackets included (nothing, when the target is only
    digits).  When the final segment is not all digits nothing is consumed:
    the host is the whole target and the port is 443. *)
Theorem parseTarget_host_port :
  (forall host digits,
     JS.isInteger_test digits = true ->
     parseTarget (host +:+ ":" +:+ digits) = (host, portOf digits)) /\
  (forall digits,
     JS.isInteger_test digits = true ->
     parseTarget digits = (EmptyString, portOf digits)) /\
  (forall target,
     JS.isInteger_test (List.last (JS.split isColon target) EmptyString) = false ->
     parseTarget target = (target, 443%N)).
Proof.
  split; [|split].
  - intros host digits Hd. unfold parseTarget.
    pose proof Hd as [_ Hall]%andb_true_iff.
    rewrite split_colon, (split_digits _ Hall), last_last, Hd, removelast_last.
    rewrite join_split, port_clamp. reflexivity.
  - intros digits Hd. unfold parseTarget.
    pose proof Hd as [_ Hall]%andb_true_iff.
    rewrite (split_digits _ Hall). cbn [List.last]. rewrite Hd, port_clamp. reflexivity.
  - intros target Hd. unfold parseTarget. rewrite Hd, join_split. reflexivity.
Qed.

(** A bracketed IPv6 literal with a port, and one without. *)
Lemma parseTarget_host_port_witness :
  parseTarget "[2001:db8::1]:8443" = ("[2001:db8::1]", 8443%N) /\
  parseTarget "[2001:db8::1]" = ("[2001:db8::1]", 443%N).
Proof.
  split.
  - exact (proj1 parseTarget_host_port "[2001:db8::1]" "8443" eq_refl).
  - exact (proj2 (proj2 parseTarget_host_port) "[2001:db8::1]" eq_refl).
Defined.

Example parseTarget_bare_ipv6 : parseTarget "2001:db8::1" = ("2001:db8:", 1%N).
Proof. reflexivity. Qed.

(** ** The CONNECT engine: the reply and the tunnel *)

Lemma onHandshake_actions g ds localHead host port :
  forallb handshake_action (onHandshake g ds localHead host port).1 = true.
Proof.
  unfold onHandshake, tlsPath, prepare, loopbackPath, splice.
  repeat case_match; reflexivity.
Qed.

Lemma forallb_existsb {A} (p q : A -> bool) l :
  (forall a, p a = true -> q a = false) ->
  forallb p l = true -> existsb q l = false.
Proof.
  intros Hpq. induction l as [|a l IH]; [reflexivity|].
  cbn. intros [Ha Hl]%andb_true_iff. rewrite (Hpq a Ha), (IH Hl). reflexivity.
Qed.

Lemma established_first_written trace : established_first true trace = true.
Proof.
  induction trace as [|a rest IH]; [reflexivity|].
  cbn [established_first orb]. rewrite IH, orb_true_r. reflexivity.
Qed.

Lemma established_first_app before rest written :
  existsb is_pipe_to_client before = false ->
  established_first written (before ++ rest) =
  established_first (written || existsb is_established before) rest.
Proof.
  revert written. induction before as [|a before IH]; intros written.
  - intros _. cbn. rewrite orb_false_r. reflexivity.
  - cbn [existsb app established_first]. intros [Ha Hb]%orb_false_iff.
    rewrite Ha, (IH _ Hb), orb_assoc. reflexivity.
Qed.

(** The reply block starts with the status line and pipes nothing. *)
Lemma established_reply httpVersion headers :
  existsb is_pipe_to_client (established httpVersion headers) = false /\
  existsb is_established (established httpVersion headers) = true.
Proof.
  unfold established. split.
  - repeat case_match; reflexivity.
  - cbn [app existsb is_established].
    assert (JS.includes ("HTTP/" +:+ httpVersion +:+ " 200 Connection Established" +:+ CRLF)
              " 200 Connection Established" = true) as ->; [|reflexivity].
    change ("HTTP/" +:+ httpVersion +:+ " 200 Connection Established" +:+ CRLF)
      with ("HTTP/" +:+ (httpVersion +:+ " 200 Connection Established" +:+ CRLF)).
    do 5 apply includes_tail.
    induction httpVersion as [|c v IH]; [reflexivity | apply includes_tail, IH].
Qed.

(** The trace of [connectEngine] after an [Allow]. *)
Lemma connectEngine_allow g counter ds heap localReq localHead incoming hostPort id :
  let trace := (connectEngine g counter ds heap localReq localHead incoming).1.1 in
  In (Call_onConnect hostPort id) trace ->
  onConnect g hostPort id = Some Allow ->
  exists start host port,
    existsb is_pipe_to_client start = false /\
    existsb is_established start = false /\
    trace = start ++
      (onConnect_callback g ds localReq (deref heap (req_headers localReq))
         localHead incoming host port Allow).1.
Proof.
  cbv zeta. unfold connectEngine.
  destruct (parseTarget (req_url localReq)) as [host port].
  set (hp := host +:+ ":" +:+ JS.numberToString port).
  intros Hin Hallow.
  assert (forall d, existsb (fun a => match a with Call_onConnect _ _ => true | _ => false end)
            (onConnect_callback g ds localReq (deref heap (req_headers localReq))
               localHead incoming host port d).1 = false) as Hquiet.
  { intros d. unfold onConnect_callback, established, splice.
    pose proof (onHandshake_actions g ds localHead host port) as H1.
    destruct d; cbn [fst]; try reflexivity.
    - destruct (3 <=? length localHead)%nat.
      + revert H1. apply forallb_existsb. intros []; cbn; congruence.
      + destruct (gather localHead incoming) as [data|];
          [|repeat case_match; reflexivity].
        pose proof (onHandshake_actions g ds data host port) as H2.
        destruct (onHandshake g ds data host port) as [t ds']. cbn [fst] in *.
        rewrite !existsb_app. cbn [existsb].
        rewrite (forallb_existsb handshake_action _ t) by (try assumption; intros []; cbn; congruence).
        repeat case_match; reflexivity.
    - repeat case_match; reflexivity. }
  destruct (onConnect g hp counter) as [decision|] eqn:Hd.
  - destruct (onConnect_callback g ds localReq _ localHead incoming host port decision)
      as [t ds'] eqn:Ht.
    cbn [fst] in *. apply in_app_or in Hin as [Hin|Hin].
    + destruct Hin as [Hin|[Hin|[Hin|[]]]]; try discriminate Hin.
      injection Hin as <- <-. rewrite Hd in Hallow. injection Hallow as ->.
      eexists _, host, port. rewrite Ht. cbn [fst]. repeat split; reflexivity.
    + specialize (Hquiet decision). rewrite Ht in Hquiet. cbn [fst] in Hquiet.
      discriminate (existsb_false_In _ _ _ Hquiet Hin).
  - cbn [fst] in Hin. destruct Hin as [Hin|[Hin|[Hin|[]]]]; try discriminate Hin.
    injection Hin as <- <-. rewrite Hd in Hallow. discriminate.
Qed.

(** C6, as the claim states it, fails: the client of the scenario sends its
    ClientHello along with the CONNECT request, the patcher allows, and the
    loopback connection is piped to the client although no
    [200 Connection Established] was written. *)
Lemma connect_established_counterexample :
  let g := Scenario.world (Scenario.decide Allow) (Responded Scenario.pinned) in
  let trace :=
    (connectEngine g 0 DynamicServer_new Scenario.heap0 Scenario.connect
       Scenario.clientHello []).1.1 in
  onConnect g "example.test:443" 0 = Some Allow /\
  In (Call_onConnect "example.test:443" 0) trace /\
  existsb is_pipe_to_client trace = true /\
  existsb is_established trace = false /\
  established_first false trace = false.
Proof.
  cbv zeta. split; [reflexivity|]. split; [|repeat split].
  vm_compute. right. right. left. reflexivity.
Qed.

(** C6, amended. After an [Allow], when fewer than three bytes came with
    the CONNECT request the engine writes [200 Connection Established]
    before it pipes the loopback connection to the client; when three
    bytes or more came with the request it goes to the handshake at once
    and writes no reply. *)
Theorem connect_established_first g counter ds heap localReq localHead incoming
    hostPort id :
  let trace := (connectEngine g counter ds heap localReq localHead incoming).1.1 in
  In (Call_onConnect hostPort id) trace ->
  onConnect g hostPort id = Some Allow ->
  ((length localHead < 3)%nat ->
   existsb is_established trace = true /\ established_first false trace = true) /\
  ((3 <= length localHead)%nat -> existsb is_established trace = false).
Proof.
  cbv zeta. intros Hin Hallow.
  destruct (connectEngine_allow g counter ds heap localReq localHead incoming hostPort id
              Hin Hallow) as (start & host & port & Hp & He & ->).
  unfold onConnect_callback. split; intros Hlen.
  - assert ((3 <=? length localHead)%nat = false) as -> by (apply Nat.leb_gt; lia).
    destruct (established_reply (req_httpVersion localReq) (deref heap (req_headers localReq)))
      as [Hrp Hre].
    assert (forall rest,
              existsb is_established
                (start ++ established (req_httpVersion localReq)
                            (deref heap (req_headers localReq)) ++ rest) = true /\
              established_first false
                (start ++ established (req_httpVersion localReq)
                            (deref heap (req_headers localReq)) ++ rest) = true) as H.
    { intros rest. split.
      - rewrite !existsb_app, Hre, orb_true_r. reflexivity.
      - rewrite (established_first_app _ _ _ Hp), (established_first_app _ _ _ Hrp).
        rewrite Hre, orb_true_r. apply established_first_written. }
    destruct (gather localHead incoming) as [data|].
    + destruct (onHandshake g ds data host port) as [t ds']. cbn [fst]. apply H.
    + cbn [fst]. rewrite <- (app_nil_r (established _ _)). apply H.
  - assert ((3 <=? length localHead)%nat = true) as -> by (apply Nat.leb_le; lia).
    rewrite existsb_app, He. cbn [orb].
    apply (forallb_existsb handshake_action); [|apply onHandshake_actions].
    intros []; cbn; congruence.
Qed.

(** The client of the scenario waits for the reply before it sends its
    ClientHello, in two pieces. *)
Lemma connect_established_first_witness :
  let g := Scenario.world (Scenario.decide Allow) (Responded Scenario.pinned) in
  let trace :=
    (connectEngine g 0 DynamicServer_new Scenario.heap0 Scenario.connect
       [] [[x16; x03]; [x01; x00; x2a]]).1.1 in
  existsb is_pipe_to_client trace = true /\
  existsb is_established trace = true /\ established_first false trace = true.
Proof.
  split; [reflexivity|].
  refine (proj1 (connect_established_first
                   (Scenario.world (Scenario.decide Allow) (Responded Scenario.pinned))
                   0 DynamicServer_new Scenario.heap0 Scenario.connect
                   [] [[x16; x03]; [x01; x00; x2a]] "example.test:443" 0 _ eq_refl) _).
  - vm_compute. right. right. left. reflexivity.
  - simpl. lia.
Defined.

(** ** The dynamic server: signing *)

Lemma sign_count_app host t1 t2 :
  sign_count host (t1 ++ t2) = (sign_count host t1 + sign_count host t2)%nat.
Proof. unfold sign_count. rewrite List.filter_app, length_app. reflexivity. Qed.

Lemma sign_count_sign host h :
  sign_count host [Tls_sign h] = if String.eqb h host then 1%nat else 0%nat.
Proof. unfold sign_count. cbn. destruct (String.eqb h host); reflexivity. Qed.

Lemma existsb_delete {A} (p : A -> bool) (l : list A) k x :
  l !! k = Some x -> existsb p l = p x || existsb p (delete k l).
Proof.
  revert k. induction l as [|a l IH]; intros [|k] H; try discriminate H.
  - injection H as ->. reflexivity.
  - cbn [existsb delete list_delete]. rewrite (IH k H).
    destruct (p a), (p x); reflexivity.
Qed.

(** When the calls for a host are serialized, a host that is settled is not
    signed again, and a host that is not is signed at most once; what
    happens to other hosts in between does not matter. *)
Lemma sign_count_serialized g host evs st :
  serialized g host st evs = true ->
  (sign_count host (loop_run g st evs).1 <= if settled st host then 0 else 1)%nat.
Proof.
  revert st. induction evs as [|ev rest IH]; intros st; [cbn; intros _; case_match; lia|].
  cbn [serialized loop_run]. intros [Hev Hrest]%andb_true_iff.
  specialize (IH _ Hrest).
  destruct (loop_step g st ev) as [t1 st1] eqn:Hstep. cbn [snd] in IH.
  destruct (loop_run g st1 rest) as [t2 st2]. cbn [fst] in *.
  rewrite sign_count_app.
  destruct ev as [h|k]; cbn [loop_step] in Hstep.
  - destruct (knows (server st) h) eqn:Hk.
    + injection Hstep as <- <-. exact IH.
    + injection Hstep as <- <-.
      unfold settled in *. cbn [server signing] in IH.
      rewrite existsb_app in IH. cbn [existsb] in IH. rewrite orb_false_r in IH.
      rewrite sign_count_sign.
      destruct (String.eqb_spec h host) as [->|Hne].
      * rewrite String.eqb_refl, !orb_true_r in IH.
        apply negb_true_iff in Hev. cbn [andb] in Hev.
        rewrite Hk, Hev. cbn [orb]. lia.
      * assert ((host =? h)%string = false) as Hne'
          by (apply String.eqb_neq; congruence).
        rewrite Hne', orb_false_r in IH. exact IH.
  - destruct (signing st !! k) as [h|] eqn:Hsig.
    + injection Hstep as <- <-. unfold settled in *. cbn [server signing] in IH.
      unfold knows, knownHosts_push in IH. cbn [knownHosts] in IH.
      rewrite existsb_app in IH. cbn [existsb] in IH. rewrite orb_false_r in IH.
      rewrite (existsb_delete (String.eqb host) (signing st) k h Hsig).
      unfold knows. rewrite <- orb_assoc in IH. exact IH.
    + injection Hstep as <- <-. exact IH.
Qed.

(** As long as no [tls.sign] calls back, every [prepare] for a host that
    is not known signs, whatever is pending. *)
Lemma sign_count_overlapping g host hosts st :
  knows (server st) host = false ->
  sign_count host (loop_run g st (map Ev_prepare hosts)).1 =
    length (List.filter (String.eqb host) hosts).
Proof.
  revert st. induction hosts as [|h hosts IH]; intros st Hk; [reflexivity|].
  cbn [map loop_run loop_step List.filter].
  destruct (knows (server st) h) eqn:Hh.
  - specialize (IH st Hk).
    destruct (loop_run g st (map Ev_prepare hosts)) as [t2 st2]. cbn [fst] in *.
    rewrite sign_count_app, IH.
    destruct (String.eqb_spec host h) as [->|Hne]; [congruence|]. reflexivity.
  - specialize (IH {| server := server st; signing := signing st ++ [h] |} Hk).
    destruct (loop_run g _ (map Ev_prepare hosts)) as [t2 st2]. cbn [fst] in *.
    rewrite sign_count_app, IH, sign_count_sign, (String.eqb_sym h host).
    destruct (host =? h)%string; reflexivity.
Qed.

(** C7, as the claim states it, fails: two calls of [prepare] for one host
    before the first [tls.sign] calls back sign twice. *)
Lemma prepare_signs_counterexample :
  let g := Scenario.world (Scenario.decide Allow) (Responded Scenario.pinned) in
  sign_count "example.test"
    (loop_run g {| server := DynamicServer_new; signing := [] |}
       [Ev_prepare "example.test"; Ev_prepare "example.test"]).1 = 2%nat.
Proof. reflexivity. Qed.

(** C7, amended. A [prepare(H)] that finds H among the known hosts schedules
    its callback on the next tick and signs nothing.  A [prepare(H)] that
    does not find H there calls [tls.sign(H)], also while an earlier
    [tls.sign(H)] has not called back.  So in a run from the start in which
    no [prepare(H)] arrives while a [tls.sign(H)] is pending, [tls.sign(H)]
    is called at most once, whatever the calls for other hosts do; and as
    long as no [tls.sign] calls back, a host that is not known is signed
    once for each [prepare] called for it. *)
Theorem prepare_signs_once g :
  (forall st host,
     knows (server st) host = true ->
     loop_step g st (Ev_prepare host) = ([ Process_nextTick; Prepare_callback host ], st)) /\
  (forall st host,
     knows (server st) host = false ->
     loop_step g st (Ev_prepare host) =
       ([ Tls_sign host ], {| server := server st; signing := signing st ++ [host] |})) /\
  (forall evs host,
     serialized g host {| server := DynamicServer_new; signing := [] |} evs = true ->
     (sign_count host
        (loop_run g {| server := DynamicServer_new; signing := [] |} evs).1 <= 1)%nat) /\
  (forall st hosts host,
     knows (server st) host = false ->
     sign_count host (loop_run g st (map Ev_prepare hosts)).1 =
       length (List.filter (String.eqb host) hosts)).
Proof.
  split; [|split; [|split]].
  - intros st host Hk. cbn [loop_step]. rewrite Hk. reflexivity.
  - intros st host Hk. cbn [loop_step]. rewrite Hk. reflexivity.
  - intros evs host Hs. apply (sign_count_serialized g host) in Hs.
    etransitivity; [exact Hs|]. case_match; lia.
  - intros st hosts host Hk. apply sign_count_overlapping. exact Hk.
Qed.

(** Two CONNECT requests for one host, the second after the certificate
    arrived, while two requests for another host race: the first host is
    signed once, and its second callback comes on the next tick. *)
Lemma prepare_signs_once_witness :
  let g := Scenario.world (Scenario.decide Allow) (Responded Scenario.pinned) in
  let evs :=
    [ Ev_prepare "example.test"; Ev_prepare "other.test"; Ev_prepare "other.test";
      Ev_signed 0; Ev_prepare "example.test" ] in
  let run := loop_run g {| server := DynamicServer_new; signing := [] |} evs in
  serialized g "example.test" {| server := DynamicServer_new; signing := [] |} evs = true /\
  serialized g "other.test" {| server := DynamicServer_new; signing := [] |} evs = false /\
  run.1 = [ Tls_sign "example.test"; Tls_sign "other.test"; Tls_sign "other.test";
            Server_addContext "example.test" "leaf certificate for example.test";
            Prepare_callback "example.test";
            Process_nextTick; Prepare_callback "example.test" ] /\
  (sign_count "example.test" run.1 <= 1)%nat.
Proof.
  split; [reflexivity|]. split; [reflexivity|]. split; [reflexivity|].
  exact (proj1 (proj2 (proj2 (prepare_signs_once
                  (Scenario.world (Scenario.decide Allow) (Responded Scenario.pinned)))))
           [ Ev_prepare "example.test"; Ev_prepare "other.test"; Ev_prepare "other.test";
             Ev_signed 0; Ev_prepare "example.test" ]
           "example.test" eq_refl).
Defined.

(** [prepare], as [onHandshake] uses it, is a turn of the loop for the call
    followed, for an unknown host, by the turn of its [tls.sign] callback. *)
Lemma prepare_loop g ds host callback :
  exists evs,
    let '(trace, st) := loop_run g {| server := ds; signing := [] |} evs in
    prepare g ds host callback = (trace ++ callback (server st), server st).
Proof.
  unfold prepare. destruct (knows ds host) eqn:Hk.
  - exists [Ev_prepare host]. cbn. rewrite Hk. reflexivity.
  - exists [Ev_prepare host; Ev_signed 0]. cbn. rewrite Hk. reflexivity.
Qed.

(** ** The synthesized replies *)

(** An [Empty] decision for a client that accepts [image/png, */*]. *)
Example request_empty :
  (requestEngine (Scenario.world (Scenario.decide Empty) (Responded Scenario.pinned))
     0 Scenario.heap0 Scenario.get).1.1 =
  [ Log "INFO" "Received a REQUEST request: http://example.test/";
    Call_onRequest None "http://example.test/" [] (deref Scenario.heap0 0%nat) 0;
    LocalRes_writeHead 200 "OK"
      (<["Content-Type" := HStr "image/png"]>
         (<["Server" := HStr "Apache/2.4.7 (Ubuntu)"]> ∅));
    LocalRes_end ].
Proof. reflexivity. Qed.

(** * Further properties of the engine *)

(** ** [getType]: what it returns and what it does to its own result *)

Lemma split_pieces_free sep s : Forall (fun w => free_of sep w = true) (JS.split sep s).
Proof.
  induction s as [|c s IH]; cbn [JS.split]; [repeat constructor|].
  destruct (sep c) eqn:Hc; [constructor; [reflexivity | exact IH]|].
  destruct (JS.split sep s) as [|w ws]; [repeat constructor; cbn; rewrite Hc; reflexivity|].
  inversion IH as [|? ? Hw Hws]; subst. constructor; [|exact Hws].
  cbn. rewrite Hc, Hw. reflexivity.
Qed.

Lemma split_free sep s : free_of sep s = true -> JS.split sep s = [s].
Proof.
  induction s as [|c s IH]; [reflexivity|]. cbn [free_of JS.split].
  intros [Hc Hs]%andb_true_iff. apply negb_true_iff in Hc. rewrite Hc, (IH Hs). reflexivity.
Qed.

Lemma trimStart_free sep s : free_of sep s = true -> free_of sep (JS.trimStart s) = true.
Proof.
  induction s as [|c s IH]; [reflexivity|]. cbn [JS.trimStart].
  intros H. destruct (JS.isWhiteSpace c); [|exact H].
  cbn in H. apply andb_true_iff in H as [_ H]. exact (IH H).
Qed.

Lemma trimEnd_free sep s : free_of sep s = true -> free_of sep (JS.trimEnd s) = true.
Proof.
  induction s as [|c s IH]; [reflexivity|]. cbn [JS.trimEnd free_of].
  intros [Hc Hs]%andb_true_iff. destruct (_ && _); [reflexivity|].
  cbn. rewrite Hc, (IH Hs). reflexivity.
Qed.

Lemma trim_free sep s : free_of sep s = true -> free_of sep (JS.trim s) = true.
Proof. intros H. apply trimEnd_free, trimStart_free, H. Qed.

Lemma trimStart_clean s : startsClean (JS.trimStart s) = true.
Proof.
  induction s as [|c s IH]; [reflexivity|]. cbn [JS.trimStart].
  destruct (JS.isWhiteSpace c) eqn:Hc; [exact IH|]. cbn. rewrite Hc. reflexivity.
Qed.

Lemma trimStart_of_clean s : startsClean s = true -> JS.trimStart s = s.
Proof.
  destruct s as [|c s]; [reflexivity|]. cbn. intros H%negb_true_iff. rewrite H. reflexivity.
Qed.

Lemma trimEnd_clean s : startsClean s = true -> startsClean (JS.trimEnd s) = true.
Proof.
  destruct s as [|c s]; [reflexivity|]. cbn [startsClean JS.trimEnd].
  intros H. apply negb_true_iff in H. rewrite H. cbn. rewrite H. reflexivity.
Qed.

Lemma trimEnd_idempotent s : JS.trimEnd (JS.trimEnd s) = JS.trimEnd s.
Proof.
  induction s as [|c s IH]; [reflexivity|]. cbn [JS.trimEnd].
  destruct (JS.isWhiteSpace c && String.eqb (JS.trimEnd s) EmptyString) eqn:Hc; [reflexivity|].
  cbn [JS.trimEnd]. rewrite IH, Hc. reflexivity.
Qed.

(** Trimming twice is trimming once. *)
Lemma trim_idempotent s : JS.trim (JS.trim s) = JS.trim s.
Proof.
  unfold JS.trim.
  rewrite (trimStart_of_clean (JS.trimEnd (JS.trimStart s)))
    by apply trimEnd_clean, trimStart_clean.
  apply trimEnd_idempotent.
Qed.

(** What the scan prefers is one of the entries, of one of the three kinds. *)
Lemma preferred_entry entries e :
  preferred entries = Some e ->
  In e entries /\
  (fullySpecified e = true \/ typeWildcard e = true \/ anyWildcard e = true).
Proof.
  unfold preferred. intros H.
  destruct (find fullySpecified entries) eqn:H1.
  { injection H as ->. apply find_some in H1 as [? ?]. auto. }
  destruct (find typeWildcard entries) eqn:H2.
  { injection H as ->. apply find_some in H2 as [? ?]. auto. }
  apply find_some in H as [? ?]. auto.
Qed.

Lemma kind_has_slash e :
  fullySpecified e = true \/ typeWildcard e = true \/ anyWildcard e = true ->
  JS.includes e "/" = true.
Proof.
  intros [H|[H|H]].
  - apply andb_true_iff in H as [H _]. exact H.
  - apply andb_true_iff in H as [H _].
    clear -H. induction e as [|c e IH]; [discriminate|].
    cbn [JS.endsWith] in H. apply orb_true_iff in H as [H|H].
    + apply String.eqb_eq in H. rewrite H. reflexivity.
    + apply includes_tail, IH, H.
  - apply anyWildcard_eq in H. rewrite H. reflexivity.
Qed.

(** The result of [getType], read off the input. *)
Lemma getType_cases str def noWildcard :
  let d := default "text/html" def in
  let entries := map JS.trim (JS.split isCommaOrSemicolon (default EmptyString str)) in
  getType str def noWildcard = d \/
  (preferred entries = Some (getType str def noWildcard) /\
   (noWildcard && JS.includes (getType str def noWildcard) "*") = false).
Proof.
  cbv zeta. unfold getType. rewrite getType_loop_preferred.
  destruct (preferred _) as [e|] eqn:Hp; [|left; reflexivity].
  rewrite (preferred_truthy _ _ Hp). cbn [negb orb].
  change (default EmptyString (Some e)) with e.
  destruct (noWildcard && JS.includes e "*") eqn:Hw; [left; reflexivity|].
  right. split; [reflexivity | exact Hw].
Qed.

(** X1. [getType] returns the default or one of the trimmed pieces of its
    input; a piece it returns contains a slash, and no star when
    [noWildcard] is set. *)
Theorem getType_returns_default_or_entry str def noWildcard :
  let out := getType str def noWildcard in
  out = default "text/html" def \/
  (In out (map JS.trim (JS.split isCommaOrSemicolon (default EmptyString str))) /\
   JS.includes out "/" = true /\
   (noWildcard = true -> JS.includes out "*" = false)).
Proof.
  cbv zeta. destruct (getType_cases str def noWildcard) as [H|[Hp Hw]]; [left; exact H|].
  right. apply preferred_entry in Hp as [Hin Hk].
  split; [exact Hin|]. split; [exact (kind_has_slash _ Hk)|].
  intros ->. exact Hw.
Qed.

(** X2. With [noWildcard] set and a default without a star (the built-in
    [text/html], say), the result never contains a star. *)
Theorem getType_noWildcard str def :
  JS.includes (default "text/html" def) "*" = false ->
  JS.includes (getType str def true) "*" = false.
Proof.
  intros Hd. destruct (getType_cases str def true) as [->|[_ Hw]]; [exact Hd | exact Hw].
Qed.

Lemma getType_noWildcard_witness :
  getType (Some "image/*, */*;q=0.8") None true = "text/html" /\
  JS.includes (getType (Some "image/*, */*;q=0.8") None true) "*" = false.
Proof.
  split; [reflexivity|].
  exact (getType_noWildcard (Some "image/*, */*;q=0.8") None eq_refl).
Defined.

(** [getType] of a string that is one trimmed entry of one of the kinds. *)
Lemma getType_single e def noWildcard :
  free_of isCommaOrSemicolon e = true ->
  JS.trim e = e ->
  fullySpecified e = true \/ typeWildcard e = true \/ anyWildcard e = true ->
  (noWildcard && JS.includes e "*") = false ->
  getType (Some e) def noWildcard = e.
Proof.
  intros Hfree Htrim Hk Hw. unfold getType.
  change (default EmptyString (Some e)) with e.
  rewrite (split_free _ _ Hfree), getType_loop_preferred. cbn [map]. rewrite Htrim.
  assert (preferred [e] = Some e) as ->.
  { unfold preferred. cbn [find].
    destruct (fullySpecified e); [reflexivity|].
    destruct (typeWildcard e); [reflexivity|].
    destruct Hk as [Hk|[Hk|Hk]]; try discriminate Hk. rewrite Hk. reflexivity. }
  assert (JS.truthy (Some e) = true) as ->.
  { apply (preferred_truthy [e]). unfold preferred. cbn [find].
    destruct (fullySpecified e); [reflexivity|].
    destruct (typeWildcard e); [reflexivity|].
    destruct Hk as [Hk|[Hk|Hk]]; try discriminate Hk. rewrite Hk. reflexivity. }
  cbn [negb orb]. change (default EmptyString (Some e)) with e.
  rewrite Hw. reflexivity.
Qed.

(** X3. [getType] is idempotent: applied to its own result, with the same
    default and flag, it returns that result again, provided it maps the
    default to itself (as it does the built-in [text/html]). *)
Theorem getType_idempotent str def noWildcard :
  getType (Some (default "text/html" def)) def noWildcard = default "text/html" def ->
  getType (Some (getType str def noWildcard)) def noWildcard = getType str def noWildcard.
Proof.
  intros Hd. destruct (getType_cases str def noWildcard) as [->|[Hp Hw]]; [exact Hd|].
  apply preferred_entry in Hp as [Hin Hk].
  apply in_map_iff in Hin as (p & Hp & Hin).
  pose proof (split_pieces_free isCommaOrSemicolon (default EmptyString str)) as Hfree.
  rewrite List.Forall_forall in Hfree. specialize (Hfree p Hin).
  apply getType_single; try assumption.
  - rewrite <- Hp. apply trim_free, Hfree.
  - rewrite <- Hp. apply trim_idempotent.
Qed.

Lemma getType_idempotent_witness :
  getType (Some (getType (Some " image/* ;q=0.8, text/css") None false)) None false
  = getType (Some " image/* ;q=0.8, text/css") None false.
Proof. exact (getType_idempotent (Some " image/* ;q=0.8, text/css") None false eq_refl). Defined.

(** ** The request engine: one outcome, each hook once *)

(** The handlers of a broken response only log and destroy. *)
Lemma broken_trace events :
  let t := flat_map remoteRes_onFailure events in
  count is_destroy t = length events /\
  count is_end t = 0%nat /\
  count is_onRequest t = 0%nat /\
  count is_Http_request t = 0%nat /\
  count is_unzip t = 0%nat /\
  count is_response_hook t = 0%nat /\
  existsb is_response_hook t = false /\
  existsb writes_to_client t = false /\
  Forall (fun a => action_id a = None /\ action_url a = None) t.
Proof.
  cbv zeta. unfold count.
  induction events as [|[message|] events IH]; [cbn; repeat split; constructor| |].
  all: destruct IH as (H1 & H2 & H3 & H4 & H5 & H6 & H7 & H8 & H9).
  all: cbn; repeat split; try assumption; try (f_equal; assumption).
  all: repeat (constructor; [split; reflexivity|]); assumption.
Qed.

(** Every run of the response callback, case by case. *)
Lemma onRemoteRes_shape g remoteRes referer url id :
  let t := onRemoteRes g remoteRes referer url id in
  (count is_end t <= 1)%nat /\
  (existsb is_destroy t = true -> existsb writes_to_client t = false) /\
  count is_onRequest t = 0%nat /\
  count is_Http_request t = 0%nat /\
  (count is_unzip t <= 1)%nat /\
  (count is_response_hook t <= 1)%nat /\
  Forall (fun a => forall i, action_id a = Some i -> i = id) t /\
  Forall (fun a => forall u, action_url a = Some u -> u = url) t.
Proof.
  cbv zeta. unfold onRemoteRes.
  destruct (res_completion remoteRes) as [|events].
  - unfold count, remoteRes_onEnd, finalize, finalize_onDone.
    repeat case_match; cbn.
    all: split; [lia|]. all: split; [first [reflexivity | discriminate]|].
    all: split; [reflexivity|]. all: split; [reflexivity|].
    all: split; [lia|]. all: split; [lia|].
    all: split; repeat constructor; cbn; intros ? [=]; auto.
  - destruct (broken_trace events) as (_ & H2 & H3 & H4 & H5 & H6 & _ & H8 & H9).
    cbv zeta in *. rewrite H2, H3, H4, H5, H6.
    split; [lia|]. split; [auto|]. split; [reflexivity|]. split; [reflexivity|].
    split; [lia|]. split; [lia|].
    split; eapply Forall_impl; try exact H9; cbn; intros a [Hi Hu] ? Hs; congruence.
Qed.

(** Every run of the engine, case by case. *)
Lemma requestEngine_shape g counter heap localReq :
  let trace := (requestEngine g counter heap localReq).1.1 in
  let heap' := (requestEngine g counter heap localReq).2 in
  let original := deref heap (req_headers localReq) in
  ((count is_end trace <= 1)%nat /\
   (existsb is_destroy trace = true -> existsb writes_to_client trace = false) /\
   (1 < count is_destroy trace -> count is_Http_request trace = 1)%nat) /\
  ((count is_onRequest trace <= 1)%nat /\
   (count is_Http_request trace <= 1)%nat /\
   (count is_unzip trace <= 1)%nat /\
   (count is_response_hook trace <= 1)%nat /\
   (count is_response_hook trace <= count is_Http_request trace)%nat /\
   (count is_Http_request trace <= count is_onRequest trace)%nat) /\
  (Forall (fun a => forall id, action_id a = Some id -> id = counter) trace /\
   Forall (fun a => forall url, action_url a = Some url -> url = req_url localReq) trace /\
   (requestEngine g counter heap localReq).1.2 =
     if existsb is_onRequest trace then (counter + 1)%N else counter) /\
  ((forall l, l <> req_headers localReq -> heap' !! l = heap !! l) /\
   (forall decision payload' headers',
      existsb is_onRequest trace = true ->
      onRequest g (original !! "referer") (req_url localReq)
        (Buffer_concat (req_chunks localReq)) original counter
        = Some (decision, payload', headers') ->
      heap' !! req_headers localReq =
        Some (<["accept-encoding" := "gzip, deflate"]> headers')) /\
   (existsb is_onRequest trace = false \/
    onRequest g (original !! "referer") (req_url localReq)
      (Buffer_concat (req_chunks localReq)) original counter = None ->
    heap' = heap)) /\
  existsb has_id trace = existsb is_onRequest trace.
Proof.
  cbv zeta. unfold count.
  pose proof onRemoteRes_shape as Hrem. cbv zeta in Hrem. unfold count in Hrem.
  destruct (requestEngine g counter heap localReq) as [[trace counter'] heap'] eqn:Hrun.
  cbn [fst snd]. pattern trace, counter', heap'.
  match goal with |- ?P _ _ _ => set (Q := P) end.
  revert Hrun.
  unfold requestEngine, localReq_onEnd, onRequest_callback, proxyRequest.
  repeat case_match; intros Hrun; simplify_eq; subst Q.
  all: try match goal with
           | |- context [onRemoteRes ?w ?r ?a ?b ?c] =>
               destruct (Hrem w r a b c) as (He & Hd & Hq & Hr & Hz & Hh & Hi & Hu);
               set (t := onRemoteRes w r a b c) in *; clearbody t
           end.
  all: clear Hrem; cbn.
  all: split; [split; [lia | split; [first [assumption | reflexivity | discriminate] | lia]]|].
  all: split; [repeat split; lia|].
  all: split; [(split; [|split]); try reflexivity;
               repeat (constructor; [cbn; intros ? [=]; auto|]);
               first [constructor | assumption]|].
  all: split; [|reflexivity].
  all: split; [intros l Hl; rewrite ?lookup_insert_ne by congruence; reflexivity|].
  all: split; [intros decision payload' headers' Hc Hp; try discriminate Hc;
               try congruence
              |intros [Hc|Hp]; try discriminate Hc; try congruence; try reflexivity].
  all: simplify_eq; unfold deref; rewrite !lookup_insert_eq; reflexivity.
Qed.

(** X4. A transaction of the request engine ends the client response at
    most once, and when it destroys the client response it writes nothing
    to it: no head, no body, no end.  It can destroy the response more
    than once (an upstream response that breaks runs one handler for each
    event), but only after the upstream request was made. *)
Theorem requestEngine_one_outcome g counter heap localReq :
  let trace := (requestEngine g counter heap localReq).1.1 in
  (count is_end trace <= 1)%nat /\
  (existsb is_destroy trace = true -> existsb writes_to_client trace = false) /\
  (1 < count is_destroy trace -> count is_Http_request trace = 1)%nat.
Proof. exact (proj1 (requestEngine_shape g counter heap localReq)). Qed.

(** X5. In one transaction the request patcher, the origin, the inflater
    and the response patchers are each used at most once (the two response
    hooks together at most once); the origin is contacted only after the
    request patcher was asked, and a response hook is called only after the
    origin was contacted. *)
Theorem requestEngine_hooks_once g counter heap localReq :
  let trace := (requestEngine g counter heap localReq).1.1 in
  (count is_onRequest trace <= 1)%nat /\
  (count is_Http_request trace <= 1)%nat /\
  (count is_unzip trace <= 1)%nat /\
  (count is_response_hook trace <= 1)%nat /\
  (count is_response_hook trace <= count is_Http_request trace)%nat /\
  (count is_Http_request trace <= count is_onRequest trace)%nat.
Proof. exact (proj1 (proj2 (requestEngine_shape g counter heap localReq))). Qed.


(** X7. Of the request header objects in the store, a transaction changes
    only the one of its own request, which [options.headers] aliases.  If
    the request patcher is not reached, or never calls back, the store is
    left as it was; once the patcher has called back, the object of the
    request holds the headers as the patcher left them, with
    [accept-encoding] overwritten by [gzip, deflate]. *)
Theorem requestEngine_store g counter heap localReq :
  let trace := (requestEngine g counter heap localReq).1.1 in
  let heap' := (requestEngine g counter heap localReq).2 in
  let original := deref heap (req_headers localReq) in
  (forall l, l <> req_headers localReq -> heap' !! l = heap !! l) /\
  (forall decision payload' headers',
     existsb is_onRequest trace = true ->
     onRequest g (original !! "referer") (req_url localReq)
       (Buffer_concat (req_chunks localReq)) original counter
       = Some (decision, payload', headers') ->
     heap' !! req_headers localReq =
       Some (<["accept-encoding" := "gzip, deflate"]> headers')) /\
  (existsb is_onRequest trace = false \/
   onRequest g (original !! "referer") (req_url localReq)
     (Buffer_concat (req_chunks localReq)) original counter = None ->
   heap' = heap).
Proof. exact (proj1 (proj2 (proj2 (proj2 (requestEngine_shape g counter heap localReq))))). Qed.

(** The header object of the scenario's request after an allowed
    transaction, and the store after a request without a host. *)
Lemma requestEngine_store_witness :
  let g := Scenario.world (Scenario.decide Allow) (Responded Scenario.pinned) in
  deref Scenario.heap0 0%nat !! "accept-encoding" = Some "br" /\
  (requestEngine g 0 Scenario.heap0 Scenario.get).2 !! 0%nat
    = Some (<["accept-encoding" := "gzip, deflate"]> (deref Scenario.heap0 0%nat)).
Proof.
  intros g. split; [reflexivity|].
  exact (proj1 (proj2 (requestEngine_store g 0 Scenario.heap0 Scenario.get))
           (Scenario.decide Allow) (Bytes []) (deref Scenario.heap0 0%nat) eq_refl eq_refl).
Defined.

(** X24. Ids are not reused: every id handed to a hook in a transaction is
    smaller than every id handed to a hook in the transaction that runs
    next on the counter it left. *)
Theorem uid_fresh g counter heap localReq1 localReq2 a1 a2 id1 id2 :
  let first := requestEngine g counter heap localReq1 in
  let second := requestEngine g first.1.2 first.2 localReq2 in
  In a1 first.1.1 -> action_id a1 = Some id1 ->
  In a2 second.1.1 -> action_id a2 = Some id2 ->
  (id1 < id2)%N.
Proof.
  cbv zeta. intros Hin1 Hid1 Hin2 Hid2.
  destruct (requestEngine_shape g counter heap localReq1)
    as (_ & _ & (Hids1 & _ & Hc1) & _ & Hh1).
  destruct (requestEngine_shape g (requestEngine g counter heap localReq1).1.2
              (requestEngine g counter heap localReq1).2 localReq2)
    as (_ & _ & (Hids2 & _ & _) & _ & _).
  cbv zeta in *. rewrite List.Forall_forall in Hids1, Hids2.
  rewrite (Hids1 a1 Hin1 id1 Hid1), (Hids2 a2 Hin2 id2 Hid2), Hc1, <- Hh1.
  assert (existsb has_id (requestEngine g counter heap localReq1).1.1 = true) as ->.
  { apply existsb_exists. exists a1. split; [exact Hin1|]. unfold has_id. rewrite Hid1. reflexivity. }
  lia.
Qed.

(** Two denied requests, one after the other: ids 0 and 1. *)
Lemma uid_fresh_witness :
  let g := Scenario.world (Scenario.decide Deny) (Responded Scenario.pinned) in
  let first := requestEngine g 0 Scenario.heap0 Scenario.get in
  let second := requestEngine g first.1.2 first.2 Scenario.get in
  let call1 := Call_onRequest None "http://example.test/" [] (deref Scenario.heap0 0%nat) 0 in
  let call2 := Call_onRequest None "http://example.test/" []
                 (<["accept-encoding" := "gzip, deflate"]> (deref Scenario.heap0 0%nat)) 1 in
  In call1 first.1.1 /\ In call2 second.1.1 /\ (0 < 1)%N.
Proof.
  intros g first second call1 call2.
  assert (In call1 first.1.1) as H1 by (vm_compute; right; left; reflexivity).
  assert (In call2 second.1.1) as H2 by (vm_compute; right; left; reflexivity).
  split; [exact H1|]. split; [exact H2|].
  exact (uid_fresh g 0 Scenario.heap0 Scenario.get Scenario.get call1 call2 0 1
           H1 eq_refl H2 eq_refl).
Defined.

(** ** The request engine: validation and the upstream request *)

(** X8. The request patcher is consulted exactly when the URL parses, is
    not empty, does not begin with a slash, and the request body arrived
    in full; a URL that fails one of the three tests gets the client
    response destroyed, with a warning, no id used and the store untouched. *)
Theorem requestEngine_validation g counter heap localReq :
  let trace := (requestEngine g counter heap localReq).1.1 in
  let valid :=
    (exists u, url_parse g (req_url localReq) = inr u) /\
    req_url localReq <> EmptyString /\
    JS.startsWith (req_url localReq) "/" = false in
  (existsb is_onRequest trace = true <-> valid /\ req_completion localReq = Ended) /\
  (~ valid ->
   exists message,
     trace = [ Log "INFO" ("Received a REQUEST request: " +:+ req_url localReq);
               Log "WARNING" message; LocalRes_destroy ] /\
     (requestEngine g counter heap localReq).1.2 = counter /\
     (requestEngine g counter heap localReq).2 = heap).
Proof.
  cbv zeta. unfold requestEngine.
  destruct (url_parse g (req_url localReq)) as [message|u] eqn:Hu.
  { split.
    - split; [discriminate | intros [[[u' [=]] _] _]].
    - intros _. eexists. repeat split. }
  destruct (String.eqb_spec (req_url localReq) EmptyString) as [He|He]; cbn [orb].
  { split.
    - split; [discriminate | intros [(_ & H & _) _]; contradiction].
    - intros _. eexists. repeat split. }
  destruct (JS.startsWith (req_url localReq) "/") eqn:Hs.
  { split.
    - split; [discriminate | intros [(_ & _ & [=]) _]].
    - intros _. eexists. repeat split. }
  split; [|intros H; exfalso; apply H; eauto].
  destruct (req_completion localReq) eqn:Hc.
  - unfold localReq_onEnd.
    destruct (onRequest g _ _ _ _ _) as [[[d p] h]|].
    + destruct (onRequest_callback _ _ _ _ _ _ _) as [t h'].
      cbn [fst existsb is_onRequest orb]. rewrite existsb_app. cbn.
      rewrite orb_true_r. split; eauto.
    + cbn [fst existsb is_onRequest orb]. rewrite existsb_app. cbn.
      rewrite orb_true_r. split; eauto.
  - split; [discriminate | intros [_ [=]]].
  - split; [discriminate | intros [_ [=]]].
Qed.

(** A request for a path only is turned away. *)
Lemma requestEngine_validation_witness :
  let g := Scenario.world (Scenario.decide Allow) (Responded Scenario.pinned) in
  let localReq :=
    {| req_url := "/index.html"; req_method := "GET"; req_httpVersion := "1.1";
       req_headers := 0%nat; req_auth := None; req_chunks := [];
       req_completion := Ended |} in
  exists message,
    (requestEngine g 7 Scenario.heap0 localReq).1.1 =
      [ Log "INFO" "Received a REQUEST request: /index.html";
        Log "WARNING" message; LocalRes_destroy ] /\
    (requestEngine g 7 Scenario.heap0 localReq).1.2 = 7%N /\
    (requestEngine g 7 Scenario.heap0 localReq).2 = Scenario.heap0.
Proof.
  refine (proj2 (requestEngine_validation
                   (Scenario.world (Scenario.decide Allow) (Responded Scenario.pinned))
                   7 Scenario.heap0
                   {| req_url := "/index.html"; req_method := "GET"; req_httpVersion := "1.1";
                      req_headers := 0%nat; req_auth := None; req_chunks := [];
                      req_completion := Ended |}) _).
  intros (_ & _ & H). discriminate H.
Defined.

(** X9. The upstream request of a transaction: after [Allow] it goes to the
    URL of the client's request; after a redirect to a location it goes to
    that location, with the method, the header object and the agent of the
    client's request (the agent is the one chosen for the original URL).
    In both cases [https] is used exactly when the target's protocol is
    [https:], the headers are those the patcher left with
    [accept-encoding] overwritten, and the body written is the payload the
    patcher handed back. *)
Theorem upstream_request_target g counter heap localReq u0 decision payload' headers'
    secure options headers :
  let trace := (requestEngine g counter heap localReq).1.1 in
  let original := deref heap (req_headers localReq) in
  url_parse g (req_url localReq) = inr u0 ->
  onRequest g (original !! "referer") (req_url localReq)
    (Buffer_concat (req_chunks localReq)) original counter
    = Some (decision, payload', headers') ->
  In (Http_request secure options headers) trace ->
  (result decision = Allow /\ options = requestOptions g heap localReq u0 \/
   exists location u,
     result decision = Redirect /\ redirectLocation decision = JValue location /\
     url_parse g location = inr u /\
     options = Object_assign (requestOptions g heap localReq u0) u) /\
  secure = bool_decide (protocol (o_url options) = Some "https:") /\
  headers = <["accept-encoding" := "gzip, deflate"]> headers' /\
  exists before after,
    trace = before ++ Http_request secure options headers ::
                      Request_write payload' :: Request_end :: after.
Proof.
  cbv zeta. intros Hu Hpatch Hin.
  destruct (requestEngine_trace g counter heap localReq)
    as [[_ Hq] | (u & warn & Hu' & _ & Hw & _ & _ & Htrace)].
  { discriminate (existsb_false_In _ _ _ Hq Hin). }
  rewrite Hu in Hu'. injection Hu' as <-.
  cbv zeta in Htrace. rewrite Hpatch in Htrace. rewrite Htrace in Hin |- *. clear Htrace.
  apply in_app_or in Hin as [Hin | [Hin | Hin]];
    [discriminate (existsb_false_In _ _ _ Hw Hin) | discriminate Hin |].
  revert Hin. unfold onRequest_callback.
  set (heap' := <[req_headers localReq := <["accept-encoding":="gzip, deflate"]> _]> _).
  assert (forall o,
            In (Http_request secure options headers)
               (proxyRequest g heap' localReq o payload' counter) ->
            o_headers o = req_headers localReq ->
            options = o /\
            secure = bool_decide (protocol (o_url options) = Some "https:") /\
            headers = <["accept-encoding" := "gzip, deflate"]> headers' /\
            exists after,
              proxyRequest g heap' localReq o payload' counter =
              Http_request secure options headers :: Request_write payload' ::
              Request_end :: after) as Hp.
  { intros o Hin Ho.
    destruct (proxyRequest_trace g heap' localReq o payload' counter) as (rest & Hr & Hq & _).
    rewrite Hr in Hin |- *.
    destruct Hin as [Hin|[Hin|[Hin|Hin]]]; try discriminate Hin;
      [|discriminate (existsb_false_In _ _ _ Hq Hin)].
    injection Hin as <- <- <-. rewrite Ho. unfold heap'.
    rewrite !deref_insert. eauto 6. }
  set (call := Call_onRequest _ _ _ _ _).
  destruct (result decision) eqn:Hres; cbn [fst];
    try (intros [H|H]; (discriminate H || destruct H; fail));
    try (intros [H|[H|H]]; (discriminate H || destruct H; fail)).
  - intros Hin. apply Hp in Hin as (-> & Hs & Hh & after & Heq); [|reflexivity].
    split; [left; auto|]. split; [exact Hs|]. split; [exact Hh|].
    exists (warn ++ [call]), after. rewrite Heq, <- app_assoc. reflexivity.
  - destruct (redirectLocation decision) as [| |location] eqn:Hloc; cbn [fst];
      try (intros [H|H]; (discriminate H || destruct H; fail));
      try (intros [H|[H|[H|H]]]; (discriminate H || destruct H; fail)).
    destruct (url_parse g location) as [message|u] eqn:Hl; cbn [fst];
      try (intros [H|H]; (discriminate H || destruct H; fail)).
    intros Hin. apply Hp in Hin as (-> & Hs & Hh & after & Heq); [|reflexivity].
    split; [right; eauto 8|]. split; [exact Hs|]. split; [exact Hh|].
    exists (warn ++ [call]), after. rewrite Heq, <- app_assoc. reflexivity.
Qed.

(** The redirect of the scenario, from [http] to [https]. *)
Lemma upstream_request_target_witness :
  let g := Scenario.world (Scenario.redirectTo "https://example.test/other")
             (Responded Scenario.zipped) in
  let u0 := {| protocol := Some "http:"; auth := None;
               hostname := Some "example.test"; port := None;
               path := Some "/"; href := "http://example.test/" |} in
  let u := {| protocol := Some "https:"; auth := None;
              hostname := Some "example.test"; port := None;
              path := Some "/"; href := "https://example.test/other" |} in
  let options := Object_assign (requestOptions g Scenario.heap0 Scenario.get u0) u in
  let headers : ReqHeaders :=
    <["accept-encoding" := "gzip, deflate"]> {[ "accept" := "image/png, */*" ]} in
  exists before after,
    (requestEngine g 0 Scenario.heap0 Scenario.get).1.1 =
      before ++ Http_request true options headers ::
                Request_write (Bytes []) :: Request_end :: after.
Proof.
  intros g u0 u options headers.
  assert (In (Http_request true options headers)
             (requestEngine g 0 Scenario.heap0 Scenario.get).1.1) as Hin.
  { vm_compute. right. right. left. reflexivity. }
  exact (proj2 (proj2 (proj2
           (upstream_request_target g 0 Scenario.heap0 Scenario.get u0
              (Scenario.redirectTo "https://example.test/other") (Bytes [])
              (deref Scenario.heap0 0%nat) true options headers
              eq_refl eq_refl Hin)))).
Defined.

(** ** The request engine: what is forwarded *)




(** X11. A response that is not text goes to [onOtherResponse] with the
    bytes as they arrived and the headers as Node parsed them (no
    [content-encoding: identity], nothing inflated); what the patcher leaves
    in the headers is forwarded, but for [content-length] and the key
    [Public-Key-Pins]. *)
Theorem other_response_untouched g remoteRes referer url id :
  isText (Some (getType (res_headers remoteRes !! "content-type") None false)) = false ->
  let data := Buffer_concat (res_chunks remoteRes) in
  let handed : ResHeaders := HStr <$> res_headers remoteRes in
  let trace := remoteRes_onEnd g remoteRes referer url id in
  handed !! "content-encoding" = HStr <$> (res_headers remoteRes !! "content-encoding") /\
  match onOtherResponse g referer url data handed id with
  | Some (patched, headers') =>
      exists forwarded,
        trace = [ Call_onOtherResponse referer url data handed id;
                  LocalRes_writeHead (statusCode remoteRes) (statusMessage remoteRes) forwarded;
                  LocalRes_write patched; LocalRes_end ] /\
        forall k, k <> "content-length" -> k <> "Public-Key-Pins" ->
                  forwarded !! k = headers' !! k
  | None => trace = [ Call_onOtherResponse referer url data handed id ]
  end.
Proof.
  intros Hbin data handed trace. subst trace. unfold remoteRes_onEnd, finalize.
  rewrite Hbin. fold data. fold handed.
  split; [apply lookup_fmap|].
  destruct (onOtherResponse g referer url data handed id) as [[patched headers']|];
    [|reflexivity].
  destruct (finalize_onDone_forwards remoteRes headers' patched) as (fwd & -> & _ & _ & Hk).
  exists fwd. split; [reflexivity | exact Hk].
Qed.

(** A compressed image goes through as it came. *)
Lemma other_response_untouched_witness :
  let g := Scenario.world (Scenario.decide Allow) (Responded Scenario.pinned) in
  let remoteRes :=
    Scenario.reply (<["content-encoding" := "gzip"]> {[ "content-type" := "image/png" ]})
      (x1f :: x8b :: Scenario.ascii_bytes "png") in
  exists forwarded,
    remoteRes_onEnd g remoteRes None "http://example.test/" 0 =
      [ Call_onOtherResponse None "http://example.test/"
          (x1f :: x8b :: Scenario.ascii_bytes "png") (HStr <$> res_headers remoteRes) 0;
        LocalRes_writeHead 200 "OK" forwarded;
        LocalRes_write (Bytes (x1f :: x8b :: Scenario.ascii_bytes "png"));
        LocalRes_end ] /\
    forall k, k <> "content-length" -> k <> "Public-Key-Pins" ->
              forwarded !! k = (HStr <$> res_headers remoteRes) !! k.
Proof.
  exact (proj2 (other_response_untouched
                  (Scenario.world (Scenario.decide Allow) (Responded Scenario.pinned))
                  (Scenario.reply
                     (<["content-encoding" := "gzip"]> {[ "content-type" := "image/png" ]})
                     (x1f :: x8b :: Scenario.ascii_bytes "png"))
                  None "http://example.test/" 0 eq_refl)).
Defined.

(** X12. A text response whose declared encoding is neither [gzip] nor
    [deflate] (or that declares none) is not inflated: [onTextResponse]
    receives the text of the bytes as they arrived, and the headers it is
    handed say [content-encoding: identity] all the same. *)
Theorem text_response_not_inflated g remoteRes referer url id :
  isText (Some (getType (res_headers remoteRes !! "content-type") None false)) = true ->
  (forall v, res_headers remoteRes !! "content-encoding" = Some v ->
             JS.toLowerCase v <> "gzip" /\ JS.toLowerCase v <> "deflate") ->
  let data := Buffer_concat (res_chunks remoteRes) in
  let handed : ResHeaders :=
    <["content-encoding" := HStr "identity"]> (HStr <$> res_headers remoteRes) in
  remoteRes_onEnd g remoteRes referer url id =
    finalize g remoteRes handed referer url true data id /\
  hd_error (remoteRes_onEnd g remoteRes referer url id) =
    Some (Call_onTextResponse referer url (Buffer_toString g data) handed id) /\
  existsb is_unzip (remoteRes_onEnd g remoteRes referer url id) = false.
Proof.
  intros Htext Henc data handed. unfold remoteRes_onEnd. rewrite Htext.
  fold data. fold handed.
  destruct (JS.strictEq _ "gzip" || JS.strictEq _ "deflate") eqn:Hz.
  { apply (inflates_declared_encoding (res_headers remoteRes !! "content-encoding")) in Hz
      as (v & Hv & Hlow).
    destruct (Henc v Hv) as [H1 H2]. destruct Hlow; contradiction. }
  split; [reflexivity|]. unfold finalize. split; [reflexivity|].
  destruct (onTextResponse g _ _ _ _ _) as [[patched headers']|]; reflexivity.
Qed.

(** A page declared as [br] reaches the text hook as it came. *)
Lemma text_response_not_inflated_witness :
  let g := Scenario.world (Scenario.decide Allow) (Responded Scenario.pinned) in
  let remoteRes :=
    Scenario.reply (<["content-encoding" := "br"]> {[ "content-type" := "text/css" ]})
      (Scenario.ascii_bytes "junk") in
  hd_error (remoteRes_onEnd g remoteRes None "http://example.test/" 0) =
    Some (Call_onTextResponse None "http://example.test/"
            (map Byte.to_N (Scenario.ascii_bytes "junk"))
            (<["content-encoding" := HStr "identity"]> (HStr <$> res_headers remoteRes)) 0).
Proof.
  refine (proj1 (proj2 (text_response_not_inflated
                          (Scenario.world (Scenario.decide Allow) (Responded Scenario.pinned))
                          (Scenario.reply
                             (<["content-encoding" := "br"]> {[ "content-type" := "text/css" ]})
                             (Scenario.ascii_bytes "junk"))
                          None "http://example.test/" 0 eq_refl _))).
  intros v Hv. vm_compute in Hv. injection Hv as <-. split; discriminate.
Defined.

(** X13. When the origin cannot be reached, the engine logs a warning and
    destroys the client response, once.  When the upstream response breaks
    off, each of its events runs its handler: an ["aborted"] destroys the
    client response, an ["error"] logs a warning and destroys it, so the
    client response is destroyed once for each event (twice when a
    response is aborted and then reports the error).  Either way no
    response hook is called and nothing is written to the client. *)
Theorem upstream_failure g heap localReq options payload id :
  let secure := bool_decide (protocol (o_url options) = Some "https:") in
  let headers := deref heap (o_headers options) in
  let trace := proxyRequest g heap localReq options payload id in
  let request := [ Http_request secure options headers; Request_write payload; Request_end ] in
  (forall message,
     http_request g secure options headers payload = ConnectFailed message ->
     trace = request ++
       [ Log "WARNING" ("Could not connect to remote server: " +:+ message);
         LocalRes_destroy ]) /\
  (forall remoteRes events,
     http_request g secure options headers payload = Responded remoteRes ->
     res_completion remoteRes = Response_broken events ->
     trace = request ++ flat_map remoteRes_onFailure events /\
     count is_destroy trace = length events) /\
  (forall remoteRes message,
     http_request g secure options headers payload = Responded remoteRes ->
     res_completion remoteRes = Response_broken [Stream_aborted; Stream_error message] ->
     trace = request ++
       [ LocalRes_destroy;
         Log "WARNING" ("Could not connect to remote server: " +:+ message);
         LocalRes_destroy ]) /\
  (match http_request g secure options headers payload with
   | ConnectFailed _ => True
   | Responded remoteRes => res_completion remoteRes <> Response_ended
   end ->
   existsb is_response_hook trace = false /\
   existsb writes_to_client trace = false).
Proof.
  cbv zeta. unfold proxyRequest, onRemoteRes.
  destruct (http_request g _ _ _ _) as [message|remoteRes].
  - split; [intros ? [= <-]; reflexivity|].
    split; [intros ? ? [=]|]. split; [intros ? ? [=]|].
    intros _. split; reflexivity.
  - split; [intros ? [=]|].
    destruct (res_completion remoteRes) as [|events] eqn:Hc.
    + split; [intros ? ? [= <-] H; congruence|].
      split; [intros ? ? [= <-] H; congruence|].
      intros H. contradiction.
    + destruct (broken_trace events) as (Hd & _ & _ & _ & _ & _ & Hh & Hw & _).
      cbv zeta in *. unfold count in *.
      split; [intros ? ? [= <-] H; rewrite Hc in H; injection H as <-;
              split; [reflexivity | exact Hd]|].
      split; [intros ? ? [= <-] H; rewrite Hc in H; injection H as ->; reflexivity|].
      intros _. split; assumption.
Qed.

(** An origin that refuses the connection, and one whose response is
    aborted and then reports the error: one destroy, and two. *)
Lemma upstream_failure_witness :
  let refused := Scenario.world (Scenario.decide Allow) (ConnectFailed "ECONNREFUSED") in
  let broken :=
    {| statusCode := 200; statusMessage := "OK"; res_headers := ∅; res_chunks := [];
       res_completion := Response_broken [Stream_aborted; Stream_error "aborted"] |} in
  let reset := Scenario.world (Scenario.decide Allow) (Responded broken) in
  let u := {| protocol := Some "http:"; auth := None;
              hostname := Some "example.test"; port := None;
              path := Some "/"; href := "http://example.test/" |} in
  let options := requestOptions reset Scenario.heap0 Scenario.get u in
  let request :=
    [ Http_request false options (deref Scenario.heap0 0%nat);
      Request_write (Bytes []); Request_end ] in
  proxyRequest refused Scenario.heap0 Scenario.get options (Bytes []) 0 =
    request ++
    [ Log "WARNING" "Could not connect to remote server: ECONNREFUSED"; LocalRes_destroy ] /\
  proxyRequest reset Scenario.heap0 Scenario.get options (Bytes []) 0 =
    request ++
    [ LocalRes_destroy;
      Log "WARNING" "Could not connect to remote server: aborted";
      LocalRes_destroy ] /\
  existsb is_response_hook (proxyRequest reset Scenario.heap0 Scenario.get options (Bytes []) 0)
    = false /\
  existsb writes_to_client (proxyRequest reset Scenario.heap0 Scenario.get options (Bytes []) 0)
    = false.
Proof.
  intros refused broken reset u options request.
  split; [|split].
  - exact (proj1 (upstream_failure refused Scenario.heap0 Scenario.get options (Bytes []) 0)
             "ECONNREFUSED" eq_refl).
  - exact (proj1 (proj2 (proj2 (upstream_failure reset Scenario.heap0 Scenario.get options
                                  (Bytes []) 0)))
             broken "aborted" eq_refl eq_refl).
  - refine (proj2 (proj2 (proj2 (upstream_failure reset Scenario.heap0 Scenario.get options
                                   (Bytes []) 0))) _).
    cbn. discriminate.
Defined.

(** ** The dynamic server: requests re-entering the request engine *)

(** X14. A request that arrives on the dynamic server is handed to the
    request engine under the URL [https://] + Host header + original URL
    (the text [undefined] stands for a missing Host header).  Whatever the
    path and the header, that URL passes the no-host test: when it parses
    and the body arrived, the request patcher is called, with that URL. *)
Theorem DynamicServer_onRequest_absolute g counter heap localReq u :
  let headers := deref heap (req_headers localReq) in
  let url := "https://" +:+ concatValue (headers !! "host") +:+ req_url localReq in
  let trace := (DynamicServer_onRequest g counter heap localReq).1.1 in
  url_parse g url = inr u ->
  req_completion localReq = Ended ->
  In (Call_onRequest (headers !! "referer") url (Buffer_concat (req_chunks localReq))
        headers counter) trace /\
  (DynamicServer_onRequest g counter heap localReq).1.2 = (counter + 1)%N.
Proof.
  cbv zeta. intros Hu Hc. unfold DynamicServer_onRequest, requestEngine.
  cbn [req_url req_headers req_completion req_chunks req_method req_httpVersion req_auth].
  rewrite Hu, Hc.
  change (String.eqb ("https://" +:+ ?x) EmptyString) with false.
  change (JS.startsWith ("https://" +:+ ?x) "/") with false.
  cbn [orb]. unfold localReq_onEnd.
  cbn [req_url req_headers req_completion req_chunks req_method req_httpVersion req_auth].
  destruct (onRequest g _ _ _ _ _) as [[[d p] h]|].
  - destruct (onRequest_callback _ _ _ _ _ _ _) as [t h'].
    cbn [fst snd]. split; [|reflexivity].
    right. apply in_or_app. right. left. reflexivity.
  - cbn [fst snd]. split; [|reflexivity].
    right. apply in_or_app. right. left. reflexivity.
Qed.

(** [GET /index.html] on the dynamic server, without a Host header. *)
Lemma DynamicServer_onRequest_absolute_witness :
  let g := Scenario.world (Scenario.decide Deny) (Responded Scenario.pinned) in
  let localReq :=
    {| req_url := "/index.html"; req_method := "GET"; req_httpVersion := "1.1";
       req_headers := 0%nat; req_auth := None; req_chunks := [];
       req_completion := Ended |} in
  In (Call_onRequest None "https://undefined/index.html" []
        (deref Scenario.heap0 0%nat) 3)
     (DynamicServer_onRequest g 3 Scenario.heap0 localReq).1.1 /\
  (DynamicServer_onRequest g 3 Scenario.heap0 localReq).1.2 = 4%N.
Proof.
  exact (DynamicServer_onRequest_absolute
           (Scenario.world (Scenario.decide Deny) (Responded Scenario.pinned))
           3 Scenario.heap0
           {| req_url := "/index.html"; req_method := "GET"; req_httpVersion := "1.1";
              req_headers := 0%nat; req_auth := None; req_chunks := [];
              req_completion := Ended |}
           {| protocol := Some "https:"; auth := None; hostname := Some "example.test";
              port := None; path := Some "/"; href := "https://undefined/index.html" |}
           eq_refl eq_refl).
Defined.

(** ** The CONNECT engine: the port and the string handed to the patcher *)

Lemma parseDigits_of_uint_acc d acc :
  JS.parseDigits (N.pos acc) (NilEmpty.string_of_uint d) = N.pos (Pos.of_uint_acc d acc).
Proof.
  revert acc. induction d; intros acc; cbn [NilEmpty.string_of_uint JS.parseDigits Pos.of_uint_acc];
    [reflexivity|..]; rewrite <- IHd; f_equal; cbn; lia.
Qed.

Lemma parseDigits_of_uint d :
  JS.parseDigits 0 (NilEmpty.string_of_uint d) = N.of_uint d.
Proof.
  unfold N.of_uint.
  induction d; cbn [NilEmpty.string_of_uint JS.parseDigits Pos.of_uint];
    [reflexivity | exact IHd |..]; apply parseDigits_of_uint_acc.
Qed.

Lemma allDigits_of_uint d : JS.allDigits (NilEmpty.string_of_uint d) = true.
Proof. induction d; cbn [NilEmpty.string_of_uint JS.allDigits]; [reflexivity|..]; exact IHd. Qed.

(** A number prints as a non-empty string of digits that reads back as
    the number. *)
Lemma numberToString_digits n :
  JS.isInteger_test (JS.numberToString n) = true /\
  JS.parseInt (JS.numberToString n) = n.
Proof.
  unfold JS.isInteger_test, JS.parseInt, JS.numberToString. split.
  - rewrite allDigits_of_uint, andb_true_r.
    destruct n as [|p]; [reflexivity|]. cbn [N.to_uint].
    pose proof (DecimalPos.Unsigned.to_uint_nonnil p) as Hp.
    destruct (Pos.to_uint p); [contradiction|..]; reflexivity.
  - rewrite parseDigits_of_uint. apply DecimalN.Unsigned.of_to.
Qed.

(** X15. The port the engine settles on is at most 65535, and the string
    [host:port] it hands to [onConnect] parses back to the same host and
    the same port. *)
Theorem parseTarget_normal url :
  let '(host, port) := parseTarget url in
  (port <= 65535)%N /\
  parseTarget (host +:+ ":" +:+ JS.numberToString port) = (host, port).
Proof.
  destruct (parseTarget url) as [host port] eqn:Hp.
  assert (port <= 65535)%N as Hle.
  { revert Hp. unfold parseTarget. destruct (JS.isInteger_test _); intros [= <- <-]; [|lia].
    rewrite port_clamp. destruct (N.leb_spec (JS.parseInt (List.last (JS.split isColon url) EmptyString)) 65535); lia. }
  split; [exact Hle|].
  destruct (numberToString_digits port) as [Hd Hv].
  unfold parseTarget.
  pose proof Hd as [_ Hall]%andb_true_iff.
  rewrite split_colon, (split_digits _ Hall), last_last, Hd, removelast_last.
  rewrite join_split, port_clamp, Hv.
  apply N.leb_le in Hle. rewrite Hle. reflexivity.
Qed.

Example parseTarget_normal_default :
  parseTarget "example.test" = ("example.test", 443%N) /\
  parseTarget "example.test:443" = ("example.test", 443%N) /\
  parseTarget "example.test:0080" = ("example.test", 80%N).
Proof. repeat split. Qed.

(** ** The CONNECT engine: waiting for the handshake *)

Lemma gather_spec data incoming :
  match gather data incoming with
  | Some out =>
      (3 <= length out)%nat /\
      exists used last rest,
        incoming = used ++ last :: rest /\
        out = data ++ concat used ++ last /\
        (used <> [] -> length (data ++ concat used) < 3)%nat
  | None =>
      incoming = [] \/ (length (data ++ concat incoming) < 3)%nat
  end.
Proof.
  revert data. induction incoming as [|chunk rest IH]; intros data; [left; reflexivity|].
  cbn [gather]. unfold Buffer_concat. cbn [concat]. rewrite app_nil_r.
  destruct (Nat.ltb_spec (length (data ++ chunk)) 3) as [Hlt|Hge].
  - specialize (IH (data ++ chunk)).
    destruct (gather (data ++ chunk) rest) as [out|].
    + destruct IH as (Hout & used & last & rest' & -> & -> & Hused).
      split; [exact Hout|].
      exists (chunk :: used), last, rest'. cbn [concat app].
      rewrite <- !app_assoc. repeat split.
      intros _. destruct used as [|c used].
      * cbn [concat]. rewrite app_nil_r. exact Hlt.
      * rewrite app_assoc. apply Hused. discriminate.
    + right. destruct IH as [-> | IH].
      * cbn [concat]. rewrite app_nil_r. exact Hlt.
      * cbn [concat]. rewrite app_assoc. exact IH.
  - split; [exact Hge|]. exists [], chunk, rest. repeat split. intros H. contradiction.
Qed.

(** X16. [gather] hands on the head followed by the chunks that arrived, in
    order, up to and including the first chunk that brings the total to
    three bytes; it keeps waiting exactly when no chunk does. *)
Theorem gather_bytes data incoming :
  match gather data incoming with
  | Some out =>
      (3 <= length out)%nat /\
      exists used last rest,
        incoming = used ++ last :: rest /\
        out = data ++ concat used ++ last /\
        (used <> [] -> length (data ++ concat used) < 3)%nat
  | None =>
      incoming = [] \/ (length (data ++ concat incoming) < 3)%nat
  end.
Proof. exact (gather_spec data incoming). Qed.

(** X17. What the engine re-emits into a tunnel is the head followed by
    chunks that arrived, in order, nothing else: after [Pipe] the head as it
    came with the request, after [Allow] a buffer of at least three bytes,
    so that the handshake test always finds the bytes it reads. *)
Theorem connectEngine_emits g counter ds heap localReq localHead incoming :
  let trace := (connectEngine g counter ds heap localReq localHead incoming).1.1 in
  let '(host, port) := parseTarget (req_url localReq) in
  let decision := onConnect g (host +:+ ":" +:+ JS.numberToString port) counter in
  forall d, In (LocalSocket_emit_data d) trace ->
    (exists used rest, incoming = used ++ rest /\ d = localHead ++ concat used) /\
    (decision = Some Allow -> (3 <= length d)%nat) /\
    (decision = Some Pipe -> d = localHead).
Proof.
  cbv zeta.
  assert (forall (d0 : Buffer) host port d,
            In (LocalSocket_emit_data d) (onHandshake g ds d0 host port).1 -> d = d0) as Hh.
  { intros d0 host port d.
    unfold onHandshake, readUInt8, tlsPath, prepare, loopbackPath, splice.
    repeat case_match; cbn [fst]; intros Hin;
      repeat (destruct Hin as [Hin|Hin]; [try discriminate Hin|]);
      try contradiction; congruence. }
  unfold connectEngine.
  destruct (parseTarget (req_url localReq)) as [host port].
  destruct (onConnect g _ counter) as [decision|];
    [|intros d Hin; cbn [fst] in Hin;
      repeat (destruct Hin as [Hin|Hin]; [discriminate Hin|]); destruct Hin].
  unfold onConnect_callback, established, splice.
  destruct decision; cbn [fst]; intros d Hin;
    try (repeat (destruct Hin as [Hin|Hin]; [discriminate Hin|]); destruct Hin; fail).
  - destruct (Nat.leb_spec 3 (length localHead)) as [Hlen|Hlen].
    + pose proof (Hh localHead host port d) as He.
      destruct (onHandshake g ds localHead host port) as [t ds']. cbn [fst] in *.
      repeat (destruct Hin as [Hin|Hin]; [discriminate Hin|]).
      apply He in Hin as ->. split; [|split; [auto | discriminate]].
      exists [], incoming. rewrite app_nil_r. auto.
    + pose proof (gather_spec localHead incoming) as Hg.
      destruct (gather localHead incoming) as [data|].
      * destruct Hg as (Hlen' & used & last & rest & -> & -> & _).
        pose proof (Hh (localHead ++ concat used ++ last) host port d) as He.
        destruct (onHandshake g ds _ host port) as [t ds']. cbn [fst] in *.
        repeat (destruct Hin as [Hin|Hin]; [discriminate Hin|]).
        apply in_app_or in Hin as [Hin|Hin].
        { repeat case_match; cbn in Hin;
            repeat (destruct Hin as [Hin|Hin]; [discriminate Hin|]); destruct Hin. }
        destruct Hin as [Hin|Hin]; [discriminate Hin|].
        apply He in Hin as ->. split; [|split; [auto | discriminate]].
        exists (used ++ [last]), rest. rewrite <- app_assoc. split; [reflexivity|].
        rewrite concat_app. cbn [concat]. rewrite app_nil_r. reflexivity.
      * cbn [fst] in Hin.
        repeat (destruct Hin as [Hin|Hin]; [discriminate Hin|]).
        repeat case_match; cbn in Hin;
          repeat (destruct Hin as [Hin|Hin]; [discriminate Hin|]); destruct Hin.
  - repeat (destruct Hin as [Hin|Hin]; [discriminate Hin|]).
    destruct (net_connect g port (Some host)); cbn in Hin;
      repeat (destruct Hin as [Hin|Hin]; [try discriminate Hin|]); try contradiction.
    injection Hin as <-. split; [|split; [discriminate | auto]].
    exists [], incoming. rewrite app_nil_r. auto.
Qed.

(** The ClientHello that arrives in two pieces is re-emitted whole. *)
Lemma connectEngine_emits_witness :
  let g := Scenario.world (Scenario.decide Allow) (Responded Scenario.pinned) in
  let d := [x16; x03; x01; x00; x2a] in
  (exists used rest, [[x16; x03]; [x01; x00; x2a]] = used ++ rest /\ d = [] ++ concat used) /\
  (3 <= length d)%nat.
Proof.
  intros g d.
  destruct (connectEngine_emits g 0 DynamicServer_new Scenario.heap0 Scenario.connect
              [] [[x16; x03]; [x01; x00; x2a]] d) as (H1 & H2 & _).
  - vm_compute. do 13 right. left. reflexivity.
  - split; [exact H1 | exact (H2 eq_refl)].
Defined.

(** ** The CONNECT engine: decisions other than [Allow] *)

(** X18. After [Deny] the engine destroys the client socket and does
    nothing else; after [Pipe] it connects once, to the host and the port
    it parsed from the target.  In neither case does it write a reply to
    the client, sign a certificate or change the dynamic server. *)
Theorem connectEngine_not_intercepted g counter ds heap localReq localHead incoming :
  let run := connectEngine g counter ds heap localReq localHead incoming in
  let '(host, port) := parseTarget (req_url localReq) in
  let hostPort := host +:+ ":" +:+ JS.numberToString port in
  let start := [ Log "INFO" ("Received a CONNECT request: " +:+ req_url localReq);
                 LocalSocket_pause; Call_onConnect hostPort counter ] in
  (onConnect g hostPort counter = Some Deny ->
   run.1.1 = start ++ [ LocalSocket_destroy ] /\ run.2 = ds) /\
  (onConnect g hostPort counter = Some Pipe ->
   (exists rest, run.1.1 = start ++ Net_connect port (Some host) :: rest /\
                 existsb is_net_connect rest = false) /\
   existsb is_established run.1.1 = false /\
   existsb is_sign_any run.1.1 = false /\
   run.2 = ds).
Proof.
  cbv zeta. unfold connectEngine.
  destruct (parseTarget (req_url localReq)) as [host port].
  split; intros ->; unfold onConnect_callback; cbn [fst snd].
  - split; reflexivity.
  - unfold splice. destruct (net_connect g port (Some host)); repeat split; eauto.
Qed.

Lemma connectEngine_not_intercepted_witness :
  let g := Scenario.world (Scenario.decide Pipe) (Responded Scenario.pinned) in
  let run := connectEngine g 0 DynamicServer_new Scenario.heap0 Scenario.connect
               (Scenario.ascii_bytes "SSH-2.0-x") [] in
  (exists rest,
     run.1.1 = [ Log "INFO" "Received a CONNECT request: example.test:443";
                 LocalSocket_pause; Call_onConnect "example.test:443" 0 ] ++
               Net_connect 443 (Some "example.test") :: rest /\
     existsb is_net_connect rest = false) /\
  existsb is_established run.1.1 = false /\
  existsb is_sign_any run.1.1 = false /\
  run.2 = DynamicServer_new.
Proof.
  exact (proj2 (connectEngine_not_intercepted
                  (Scenario.world (Scenario.decide Pipe) (Responded Scenario.pinned))
                  0 DynamicServer_new Scenario.heap0 Scenario.connect
                  (Scenario.ascii_bytes "SSH-2.0-x") []) eq_refl).
Defined.

(** ** The dynamic server: known hosts *)

Lemma knows_push ds host h :
  knows (knownHosts_push ds host) h = knows ds h || String.eqb h host.
Proof.
  unfold knows, knownHosts_push. cbn [knownHosts]. rewrite existsb_app. cbn.
  rewrite orb_false_r. reflexivity.
Qed.

(** What [prepare] does to the dynamic server, whatever its callback. *)
Lemma prepare_server g ds host callback :
  ds_port (prepare g ds host callback).2 = ds_port ds /\
  knows (prepare g ds host callback).2 host = true /\
  (forall h, knows ds h = true -> knows (prepare g ds host callback).2 h = true).
Proof.
  unfold prepare. destruct (knows ds host) eqn:Hk; cbn [snd].
  - auto.
  - split; [reflexivity|]. split.
    + rewrite knows_push, String.eqb_refl. apply orb_true_r.
    + intros h Hh. rewrite knows_push, Hh. reflexivity.
Qed.

(** The state of the loop after one event. *)
Lemma loop_step_server g st ev :
  ds_port (server (loop_step g st ev).2) = ds_port (server st) /\
  (forall h, knows (server st) h = true -> knows (server (loop_step g st ev).2) h = true) /\
  (forall h, In (Prepare_callback h) (loop_step g st ev).1 ->
             knows (server (loop_step g st ev).2) h = true).
Proof.
  destruct ev as [host|k]; cbn [loop_step].
  - destruct (knows (server st) host) eqn:Hk; cbn [fst snd server].
    + split; [reflexivity|]. split; [auto|].
      intros h [H|[H|[]]]; [discriminate H|]. injection H as <-. exact Hk.
    + split; [reflexivity|]. split; [auto|].
      intros h [H|[]]. discriminate H.
  - destruct (signing st !! k) as [host|]; cbn [fst snd server].
    + split; [reflexivity|]. split.
      * intros h Hh. rewrite knows_push, Hh. reflexivity.
      * intros h [H|[H|[]]]; [discriminate H|]. injection H as <-.
        rewrite knows_push, String.eqb_refl. apply orb_true_r.
    + split; [reflexivity|]. split; [auto|]. intros h [].
Qed.

(** Once a host is known, no turn of the loop signs for it. *)
Lemma sign_count_known g host evs st :
  knows (server st) host = true ->
  sign_count host (loop_run g st evs).1 = 0%nat.
Proof.
  revert st. induction evs as [|ev rest IH]; intros st Hk; [reflexivity|].
  cbn [loop_run].
  pose proof (proj1 (proj2 (loop_step_server g st ev)) host Hk) as Hk1.
  assert (sign_count host (loop_step g st ev).1 = 0%nat) as H0.
  { destruct ev as [h|k]; cbn [loop_step].
    - destruct (knows (server st) h) eqn:Hh; [reflexivity|].
      cbn [fst]. rewrite sign_count_sign.
      destruct (String.eqb_spec h host) as [->|_]; [congruence | reflexivity].
    - destruct (signing st !! k); reflexivity. }
  destruct (loop_step g st ev) as [t1 st1]. cbn [fst snd] in *.
  specialize (IH st1 Hk1).
  destruct (loop_run g st1 rest) as [t2 st2]. cbn [fst] in *.
  rewrite sign_count_app, H0, IH. reflexivity.
Qed.

(** X19. A host becomes known to the dynamic server when a [tls.sign] for
    it calls back, and in no other way: a call of [prepare] leaves the
    known hosts as they are.  From the moment a host is known no
    [prepare], however the calls and the callbacks interleave afterwards,
    calls [tls.sign] for it again. *)
Theorem known_host_not_signed g :
  (forall st k host,
     signing st !! k = Some host ->
     knows (server (loop_step g st (Ev_signed k)).2) host = true) /\
  (forall st ev host,
     knows (server st) host = false ->
     knows (server (loop_step g st ev).2) host = true ->
     exists k, ev = Ev_signed k /\ signing st !! k = Some host) /\
  (forall st evs host,
     knows (server st) host = true ->
     sign_count host (loop_run g st evs).1 = 0%nat).
Proof.
  split; [|split].
  - intros st k host Hs. cbn [loop_step]. rewrite Hs. cbn [snd server].
    rewrite knows_push, String.eqb_refl. apply orb_true_r.
  - intros st ev host Hk Hk'. destruct ev as [h|k]; cbn [loop_step] in Hk'.
    + destruct (knows (server st) h); cbn [snd server] in Hk'; congruence.
    + destruct (signing st !! k) as [h|] eqn:Hs; cbn [snd server] in Hk'; [|congruence].
      rewrite knows_push, Hk in Hk'. cbn [orb] in Hk'.
      apply String.eqb_eq in Hk' as ->. eauto.
  - intros st evs host Hk. apply sign_count_known. exact Hk.
Qed.

(** After the certificate of [example.test] arrived, further handshakes for
    it sign nothing, while another host still signs. *)
Lemma known_host_not_signed_witness :
  let g := Scenario.world (Scenario.decide Allow) (Responded Scenario.pinned) in
  let st :=
    (loop_run g {| server := DynamicServer_new; signing := [] |}
       [Ev_prepare "example.test"; Ev_signed 0]).2 in
  let evs := [Ev_prepare "example.test"; Ev_prepare "other.test"; Ev_prepare "example.test"] in
  knows (server st) "example.test" = true /\
  sign_count "example.test" (loop_run g st evs).1 = 0%nat /\
  sign_count "other.test" (loop_run g st evs).1 = 1%nat.
Proof.
  intros g st evs. split; [reflexivity|]. split; [|reflexivity].
  exact (proj2 (proj2 (known_host_not_signed g)) st evs "example.test" eq_refl).
Defined.

(** X20. However calls of [prepare] and completions of [tls.sign]
    interleave, the dynamic server never forgets a host and never changes
    its port, and every host whose [prepare] callback has run is known: the
    certificate context is installed before the callback connects. *)
Theorem loop_run_knownHosts g evs st :
  let run := loop_run g st evs in
  ds_port (server run.2) = ds_port (server st) /\
  (forall h, knows (server st) h = true -> knows (server run.2) h = true) /\
  (forall h, In (Prepare_callback h) run.1 -> knows (server run.2) h = true).
Proof.
  cbv zeta. revert st. induction evs as [|ev rest IH]; intros st.
  { cbn. split; [reflexivity|]. split; [auto|]. intros h []. }
  cbn [loop_run].
  destruct (loop_step_server g st ev) as (Hp & Hm & Hc).
  destruct (loop_step g st ev) as [t1 st1]. cbn [fst snd] in *.
  destruct (IH st1) as (Hp' & Hm' & Hc').
  destruct (loop_run g st1 rest) as [t2 st2]. cbn [fst snd] in *.
  split; [congruence|]. split; [auto|].
  intros h [Hin|Hin]%in_app_or; auto.
Qed.

(** ** [getType]: a fully-specified first entry *)

Lemma split_first sep m c rest :
  free_of sep m = true -> sep c = true ->
  JS.split sep (m +:+ String c rest) = m :: JS.split sep rest.
Proof.
  intros Hm Hc. induction m as [|a m IH].
  - change (EmptyString +:+ String c rest) with (String c rest).
    cbn [JS.split]. rewrite Hc. reflexivity.
  - cbn [free_of] in Hm. apply andb_true_iff in Hm as [Ha Hm]. apply negb_true_iff in Ha.
    change (String a m +:+ String c rest) with (String a (m +:+ String c rest)).
    cbn [JS.split]. rewrite Ha, (IH Hm). reflexivity.
Qed.

(** X21. When the first piece of the header value is fully specified,
    [getType] returns it, trimmed, whatever follows the first [,] or [;]:
    parameters such as [charset] and later alternatives do not count. *)
Theorem getType_first_entry m c rest def noWildcard :
  free_of isCommaOrSemicolon m = true ->
  isCommaOrSemicolon c = true ->
  fullySpecified (JS.trim m) = true ->
  getType (Some (m +:+ String c rest)) def noWildcard = JS.trim m /\
  getType (Some m) def noWildcard = JS.trim m.
Proof.
  intros Hm Hc Hf.
  assert (forall parts, getType_loop (m :: parts) None = Some (JS.trim m)) as Hloop.
  { intros parts. rewrite getType_loop_step. cbv zeta. cbn [JS.truthy negb andb orb].
    destruct (entry_kinds (JS.trim m)) as [Ha Ht].
    destruct (anyWildcard (JS.trim m)) eqn:Hany.
    { destruct (Ha eq_refl) as [_ Hf']. congruence. }
    destruct (typeWildcard (JS.trim m)) eqn:Htype.
    { rewrite (Ht eq_refl) in Hf. discriminate. }
    cbn [orb andb]. rewrite Hf. reflexivity. }
  assert (JS.truthy (Some (JS.trim m)) = true) as Htruthy.
  { apply (preferred_truthy [JS.trim m]). unfold preferred. cbn [find]. rewrite Hf. reflexivity. }
  assert (JS.includes (JS.trim m) "*" = false) as Hstar.
  { apply andb_true_iff in Hf as [_ Hf]. apply negb_true_iff, Hf. }
  unfold getType. change (default EmptyString (Some ?x)) with x.
  rewrite (split_first _ _ _ _ Hm Hc), (split_free _ _ Hm), !Hloop, Htruthy.
  change (default EmptyString (Some ?x)) with x.
  rewrite Hstar, andb_false_r. split; reflexivity.
Qed.

Lemma getType_first_entry_witness :
  getType (Some "text/html; charset=utf-8") None false = "text/html" /\
  isText (Some (getType (Some "text/html; charset=utf-8") None false)) = true.
Proof.
  pose proof (proj1 (getType_first_entry "text/html" ";" " charset=utf-8" None false
                       eq_refl eq_refl eq_refl)) as H.
  split; [exact H|].
  change (isText (Some (getType (Some ("text/html" +:+ String ";" " charset=utf-8"))
                          None false)) = true).
  rewrite H. reflexivity.
Defined.

(** ** The request engine: replies it writes itself *)

(** X22. After [Empty], and after [Redirect] without a location, the engine
    answers the client itself and does not contact the origin: status 200
    OK; the headers of the decision when it has some, else [Server] and a
    [Content-Type] chosen from the request's [accept] header that never
    contains a star; no body after [Empty], the redirect text after
    [Redirect]. *)
Theorem synthesized_reply g counter heap localReq decision payload' headers' :
  let trace := (requestEngine g counter heap localReq).1.1 in
  let original := deref heap (req_headers localReq) in
  existsb is_onRequest trace = true ->
  onRequest g (original !! "referer") (req_url localReq)
    (Buffer_concat (req_chunks localReq)) original counter
    = Some (decision, payload', headers') ->
  result decision = Empty \/
  (result decision = Redirect /\ redirectLocation decision = JNull) ->
  exists before h,
    trace = before ++
      LocalRes_writeHead 200 "OK" h ::
      match result decision with
      | Empty => [ LocalRes_end ]
      | _ => [ LocalRes_write (redirectText decision); LocalRes_end ]
      end /\
    existsb writes_to_client before = false /\
    existsb is_Http_request trace = false /\
    match d_headers decision with
    | Some given => h = given
    | None =>
        h !! "Server" = Some (HStr "Apache/2.4.7 (Ubuntu)") /\
        exists contentType,
          h !! "Content-Type" = Some (HStr contentType) /\
          contentType = getType (headers' !! "accept") None true /\
          JS.includes contentType "*" = false
    end.
Proof.
  cbv zeta. intros Hcall Hpatch Hdec.
  destruct (requestEngine_trace g counter heap localReq)
    as [[Hq _] | (u & warn & _ & _ & Hw & Hc & _ & Htrace)].
  { rewrite Hq in Hcall. discriminate. }
  cbv zeta in Htrace. rewrite Hpatch in Htrace. rewrite Htrace. clear Htrace.
  set (call := Call_onRequest _ _ _ _ _).
  unfold onRequest_callback.
  rewrite deref_insert, deref_insert.
  rewrite (lookup_insert_ne _ "accept-encoding" "accept") by discriminate.
  assert (match d_headers decision with
          | Some given =>
              default (defaultHeaders (headers' !! "accept")) (d_headers decision) = given
          | None =>
              default (defaultHeaders (headers' !! "accept")) (d_headers decision) !! "Server"
                = Some (HStr "Apache/2.4.7 (Ubuntu)") /\
              exists contentType,
                default (defaultHeaders (headers' !! "accept")) (d_headers decision)
                  !! "Content-Type" = Some (HStr contentType) /\
                contentType = getType (headers' !! "accept") None true /\
                JS.includes contentType "*" = false
          end) as Hh.
  { destruct (d_headers decision); [reflexivity|]. cbn [default]. unfold defaultHeaders. split.
    - rewrite lookup_insert_ne by discriminate. apply lookup_insert_eq.
    - eexists. split; [apply lookup_insert_eq|]. split; [reflexivity|].
      destruct (getType_cases (headers' !! "accept") None true) as [->|[_ Hs]];
        [reflexivity | exact Hs]. }
  destruct Hdec as [Hres | [Hres Hloc]]; rewrite Hres; [|rewrite Hloc]; cbn [fst].
  - exists (warn ++ [call]), (default (defaultHeaders (headers' !! "accept")) (d_headers decision)).
    rewrite <- app_assoc. split; [reflexivity|].
    rewrite !existsb_app, Hc, Hw. repeat split; assumption.
  - exists (warn ++ [call]), (default (defaultHeaders (headers' !! "accept")) (d_headers decision)).
    rewrite <- app_assoc. split; [reflexivity|].
    rewrite !existsb_app, Hc, Hw. repeat split; assumption.
Qed.

(** The client of the scenario accepts [image/png, */*]. *)
Lemma synthesized_reply_witness :
  let g := Scenario.world (Scenario.decide Empty) (Responded Scenario.pinned) in
  exists before h,
    (requestEngine g 0 Scenario.heap0 Scenario.get).1.1 =
      before ++ [ LocalRes_writeHead 200 "OK" h; LocalRes_end ] /\
    h !! "Content-Type" = Some (HStr "image/png").
Proof.
  intros g.
  destruct (synthesized_reply g 0 Scenario.heap0 Scenario.get (Scenario.decide Empty)
              (Bytes []) (deref Scenario.heap0 0%nat) eq_refl eq_refl (or_introl eq_refl))
    as (before & h & Heq & _ & _ & _ & ct & Hct & -> & _).
  exists before, h. split; [exact Heq | exact Hct].
Defined.

(** ** The CONNECT engine: ids and the dynamic server *)

Lemma onHandshake_server g ds localHead host port :
  ds_port (onHandshake g ds localHead host port).2 = ds_port ds /\
  (forall h, knows ds h = true -> knows (onHandshake g ds localHead host port).2 h = true) /\
  Forall (fun a => action_id a = None) (onHandshake g ds localHead host port).1.
Proof.
  unfold onHandshake, tlsPath.
  repeat case_match; cbn [fst snd];
    try (split; [reflexivity|]; split; [auto|]; unfold loopbackPath, splice;
         repeat case_match; repeat constructor).
  destruct (prepare_server g ds host
              (fun ds' => Net_connect (ds_port ds') None ::
                 match net_connect g (ds_port ds') None with
                 | Some message =>
                     [Log "ERROR" "An error occured when connecting to dynamic server for encrypted requests handling.";
                      Throw message]
                 | None => splice localHead
                 end)) as (Hp & _ & Hm).
  split; [exact Hp|]. split; [exact Hm|].
  unfold prepare, splice. repeat case_match; repeat constructor.
Qed.

(** X23. Every CONNECT transaction pauses the client socket, then calls
    [onConnect] once, with [host:port] and the value of the counter, which
    it advances by one; no other action of the transaction carries an id.
    The transaction never changes the port of the dynamic server and never
    makes it forget a host. *)
Theorem connectEngine_ids g counter ds heap localReq localHead incoming :
  let run := connectEngine g counter ds heap localReq localHead incoming in
  let '(host, port) := parseTarget (req_url localReq) in
  run.1.2 = (counter + 1)%N /\
  (exists rest,
     run.1.1 = [ Log "INFO" ("Received a CONNECT request: " +:+ req_url localReq);
                 LocalSocket_pause;
                 Call_onConnect (host +:+ ":" +:+ JS.numberToString port) counter ] ++ rest /\
     Forall (fun a => action_id a = None) rest) /\
  ds_port run.2 = ds_port ds /\
  (forall h, knows ds h = true -> knows run.2 h = true).
Proof.
  cbv zeta. unfold connectEngine.
  destruct (parseTarget (req_url localReq)) as [host port].
  destruct (onConnect g _ counter) as [decision|]; cbn [fst snd];
    [|split; [reflexivity|]; split; [exists []; split; [reflexivity | constructor]|]; auto].
  assert (forall d0,
            ds_port (onHandshake g ds d0 host port).2 = ds_port ds /\
            (forall h, knows ds h = true -> knows (onHandshake g ds d0 host port).2 h = true) /\
            Forall (fun a => action_id a = None) (onHandshake g ds d0 host port).1) as Hh
    by (intros; apply onHandshake_server).
  unfold onConnect_callback.
  destruct decision;
    try (cbn [fst snd]; split; [reflexivity|];
         split; [eexists; split; [reflexivity|]; unfold splice;
                 repeat case_match; repeat constructor | auto]).
  destruct (3 <=? length localHead)%nat.
  - destruct (Hh localHead) as (Hp & Hm & Hf).
    destruct (onHandshake g ds localHead host port) as [t ds']. cbn [fst snd] in *.
    split; [reflexivity|]. split; [exists t; auto | auto].
  - destruct (gather localHead incoming) as [data|].
    + destruct (Hh data) as (Hp & Hm & Hf).
      destruct (onHandshake g ds data host port) as [t ds']. cbn [fst snd] in *.
      split; [reflexivity|]. split; [|auto].
      eexists. split; [reflexivity|].
      apply Forall_app. split; [|constructor; [reflexivity | exact Hf]].
      unfold established. repeat case_match; repeat constructor.
    + cbn [fst snd]. split; [reflexivity|]. split; [|auto].
      eexists. split; [reflexivity|].
      unfold established. repeat case_match; repeat constructor.
Qed.
